(** * The CSV pipeline of exceljs: line buffer, value mapper, file reader

    A shallow embedding of [lib/csv/line-buffer.js] and of the parts of
    [lib/csv/csv.js] that decide how fields are typed, how a file is read
    and how a large file is streamed in batches.

    Conventions of the embedding:
    - a JavaScript string is a [string]: a sequence of code units, here
      the code units below 256;
    - counters and sizes are [Z]; [Infinity] as a threshold is [None];
    - an [EventEmitter] is modelled by the trace of events it emits, in
      emission order; listeners do not call back into the object;
    - a method is a function from the object's state to its new state,
      the events emitted and, where it has one, the returned value. *)

From Stdlib Require Import ZArith Ascii String List Lia Bool.
From stdpp Require Import base option list strings gmap.
Import ListNotations.

Local Open Scope string_scope.
Local Open Scope Z_scope.
Local Open Scope list_scope.

(** ** Text splitting: [String.prototype.split] on the line delimiter *)

Module Split.

Definition LF : ascii := "010"%char.
Definition CR : ascii := "013"%char.

(** [options.lineDelimiter]: the default pattern [/\r?\n/], or a separator
    string given by the caller. A regular expression of the caller's own
    is not modelled. *)
Inductive delimiter : Type :=
| CrLfPattern
| Separator (sep : string).

(** Puts a code unit in front of the first fragment. *)
Definition cons_head (c : ascii) (frags : list string) : list string :=
  match frags with
  | h :: t => String c h :: t
  | [] => [String c ""]
  end.

(** [s.split(/\r?\n/)]: the text is scanned from the left; at a line feed,
    or at a carriage return directly followed by a line feed, the current
    fragment ends and the scan goes on after the match. The result always
    has a last fragment, the text after the last match. *)
Fixpoint split_crlf (s : string) : list string :=
  match s with
  | "" => [""]
  | String c s' =>
      if Ascii.eqb c LF then "" :: split_crlf s'
      else
        match s' with
        | String c' s'' =>
            if Ascii.eqb c CR && Ascii.eqb c' LF then "" :: split_crlf s''
            else cons_head c (split_crlf s')
        | "" => cons_head c (split_crlf s')
        end
  end.

(** [s.split(sep)] for a non-empty string [sep]: occurrences are taken from
    the left and do not overlap; [skip] counts the code units of the
    current occurrence that are still to be passed over. *)
Fixpoint split_sep (sep : string) (skip : nat) (s : string) : list string :=
  match s with
  | "" => [""]
  | String c s' =>
      match skip with
      | S k => split_sep sep k s'
      | O =>
          if String.prefix sep s
          then "" :: split_sep sep (Nat.pred (String.length sep)) s'
          else cons_head c (split_sep sep 0 s')
      end
  end.

Definition split (d : delimiter) (s : string) : list string :=
  match d with
  | CrLfPattern => split_crlf s
  | Separator sep => split_sep sep 0 s
  end.

(** [lines.pop()]: the array without its last element, and that element.
    [split] never returns an empty array, so the default is not used. *)
Definition pop (frags : list string) : list string * string :=
  (removelast frags, List.last frags "").

(** The number of occurrences of [/\r?\n/] in a text. Every occurrence
    ends with one line feed and every line feed ends one occurrence. *)
Fixpoint delimiter_count (s : string) : nat :=
  match s with
  | "" => O
  | String c s' =>
      if Ascii.eqb c LF then S (delimiter_count s') else delimiter_count s'
  end.

(** The concatenation of the chunks of a stream. *)
Fixpoint concat_chunks (chunks : list string) : string :=
  match chunks with
  | [] => ""
  | c :: cs => c +:+ concat_chunks cs
  end.

(** A carriage return followed by a line feed at the head of the text. *)
Definition crlf_head (c : ascii) (s : string) : Prop :=
  c = CR /\ exists s', s = String LF s'.

(** A line feed as a text, to write chunks with. *)
Definition NL : string := String LF "".

End Split.

(** ** [LineBuffer] *)

Module LineBuffer.
Import Split.

Inductive event : Type :=
| Line (line : string)
| Progress (count : Z)
| Drain
| Done
| Callback.

(** The options the constructor reads that change what is emitted.
    [encoding], [maxLineCount] and [logging] are stored and never read by
    the methods below. *)
Record options : Type := mkOptions {
  opt_maxBufferSize : option Z;
  opt_transform : option (string -> string);
  opt_lineDelimiter : option string;
  opt_progressCallback : bool;
  opt_flushLineCount : option Z
}.

Definition no_options : options :=
  {| opt_maxBufferSize := None; opt_transform := None;
     opt_lineDelimiter := None; opt_progressCallback := false;
     opt_flushLineCount := None |}.

Record t : Type := mk {
  buffer : string;
  queue : list string;
  lineCount : Z;
  corked : bool;
  maxBufferSize : Z;
  transformFn : option (string -> string);
  _paused : bool;
  lineDelimiter : delimiter;
  progressCallback : bool;
  flushLineCount : option Z
}.

Definition set_buffer (b : string) (lb : t) : t :=
  mk b (queue lb) (lineCount lb) (corked lb) (maxBufferSize lb)
     (transformFn lb) (_paused lb) (lineDelimiter lb) (progressCallback lb)
     (flushLineCount lb).

Definition set_queue (q : list string) (lb : t) : t :=
  mk (buffer lb) q (lineCount lb) (corked lb) (maxBufferSize lb)
     (transformFn lb) (_paused lb) (lineDelimiter lb) (progressCallback lb)
     (flushLineCount lb).

Definition set_lineCount (n : Z) (lb : t) : t :=
  mk (buffer lb) (queue lb) n (corked lb) (maxBufferSize lb)
     (transformFn lb) (_paused lb) (lineDelimiter lb) (progressCallback lb)
     (flushLineCount lb).

Definition set_corked (c : bool) (lb : t) : t :=
  mk (buffer lb) (queue lb) (lineCount lb) c (maxBufferSize lb)
     (transformFn lb) (_paused lb) (lineDelimiter lb) (progressCallback lb)
     (flushLineCount lb).

Definition set_paused (p : bool) (lb : t) : t :=
  mk (buffer lb) (queue lb) (lineCount lb) (corked lb) (maxBufferSize lb)
     (transformFn lb) p (lineDelimiter lb) (progressCallback lb)
     (flushLineCount lb).

(** [x || dflt] on a number option: absent and [0] both give the default. *)
Definition or_default (x : option Z) (dflt : Z) : Z :=
  match x with
  | Some v => if v =? 0 then dflt else v
  | None => dflt
  end.

(** The constructor. A zero [flushLineCount] and an empty [lineDelimiter]
    are falsy and give the defaults, as a zero [maxBufferSize] does. *)
Definition new (o : options) : t :=
  {| buffer := "";
     queue := [];
     lineCount := 0;
     corked := false;
     maxBufferSize := or_default (opt_maxBufferSize o) (1024 * 1024);
     transformFn := opt_transform o;
     _paused := false;
     lineDelimiter :=
       match opt_lineDelimiter o with
       | Some "" | None => CrLfPattern
       | Some sep => Separator sep
       end;
     progressCallback := opt_progressCallback o;
     flushLineCount :=
       match opt_flushLineCount o with
       | Some v => if v =? 0 then None else Some v
       | None => None
       end |}.

(** [if (this.transformFn) line = this.transformFn(line)] *)
Definition transformed (lb : t) (line : string) : string :=
  match transformFn lb with
  | Some f => f line
  | None => line
  end.

(** [this.lineCount >= this.flushLineCount] *)
Definition threshold_reached (lb : t) : bool :=
  match flushLineCount lb with
  | Some n => n <=? lineCount lb
  | None => false
  end.

Definition _flush (lb : t) : t * list event :=
  if negb (corked lb) && (0 <? Z.of_nat (length (queue lb)))
  then (set_queue [] lb, map (fun line => Line (transformed lb line)) (queue lb))
  else (lb, []).

(** The body of [lines.forEach] in [write], on the state and the events
    emitted so far. *)
Definition write_line (acc : t * list event) (line : string) : t * list event :=
  let '(lb, evs) := acc in
  if corked lb then (set_queue (queue lb ++ [line]) lb, evs)
  else
    let lb1 := set_lineCount (lineCount lb + 1) lb in
    let evs1 :=
      evs ++ Line (transformed lb line)
          :: (if progressCallback lb1 then [Progress (lineCount lb1)] else []) in
    if threshold_reached lb1
    then let '(lb2, fl) := _flush lb1 in (lb2, evs1 ++ fl)
    else (lb1, evs1).

Definition write (chunk : string) (lb : t) : bool * t * list event :=
  if _paused lb then (false, lb, [])
  else
    let '(lines, rest) := pop (split (lineDelimiter lb) (buffer lb +:+ chunk)) in
    let '(lb1, evs) := fold_left write_line lines (set_buffer rest lb, []) in
    let '(lb2, fl) :=
      if Z.of_nat (String.length (buffer lb1)) >? maxBufferSize lb1
      then _flush lb1 else (lb1, []) in
    (negb (corked lb2), lb2, evs ++ fl).

Definition cork (lb : t) : t * list event := (set_corked true lb, []).

Definition uncork (lb : t) : t * list event :=
  let '(lb1, fl) := _flush (set_corked false lb) in
  (lb1, fl ++ [Drain]).

(** [end(callback)]; [callback] tells whether one was passed. *)
Definition end_ (callback : bool) (lb : t) : t * list event :=
  let '(lb1, evs) :=
    if String.eqb (buffer lb) "" then (lb, [])
    else (set_buffer "" lb, [Line (buffer lb)]) in
  (lb1, evs ++ Done :: (if callback then [Callback] else [])).

Definition pause (lb : t) : t * list event := (set_paused true lb, []).

Definition resume (lb : t) : t * list event :=
  let lb0 := set_paused false lb in
  let '(lb1, evs) :=
    if String.eqb (buffer lb0) "" then (lb0, [])
    else let '(_, lb', evs') := write (buffer lb0) lb0 in (lb', evs') in
  let '(lb2, fl) := _flush lb1 in
  (lb2, evs ++ fl).

(** A call of one of the methods, and a sequence of calls on one object. *)
Inductive call : Type :=
| Write (chunk : string)
| Cork
| Uncork
| End (callback : bool)
| Pause
| Resume.

Definition step (c : call) (lb : t) : t * list event :=
  match c with
  | Write chunk => let '(_, lb', evs) := write chunk lb in (lb', evs)
  | Cork => cork lb
  | Uncork => uncork lb
  | End cb => end_ cb lb
  | Pause => pause lb
  | Resume => resume lb
  end.

Fixpoint run (cs : list call) (lb : t) : t * list event :=
  match cs with
  | [] => (lb, [])
  | c :: cs' =>
      let '(lb1, evs1) := step c lb in
      let '(lb2, evs2) := run cs' lb1 in
      (lb2, evs1 ++ evs2)
  end.

(** The lines among the events. *)
Definition lines_of (evs : list event) : list string :=
  omap (fun e => match e with Line l => Some l | _ => None end) evs.

Definition getStats (lb : t) : Z * Z * Z * bool :=
  (Z.of_nat (String.length (buffer lb)), lineCount lb,
   Z.of_nat (length (queue lb)), corked lb).

End LineBuffer.

(** ** Buffers used as examples *)

Module Scenarios.
Import Split LineBuffer.

(** A buffer with a one-unit size limit, corked, holding one queued line. *)
Definition corked_with_line : t :=
  (run [Cork; Write ("a" +:+ NL)]
       (new (mkOptions (Some 1) None None false None))).1.

(** A buffer split on the separator ["ab"], paused with the pending
    text ["ba"], in which the separator does not occur. *)
Definition paused_with_ba : t :=
  (run [Write "ba"; Pause] (new (mkOptions None None (Some "ab") false None))).1.

(** A fresh default buffer paused with the pending text ["ab"]. *)
Definition paused_with_ab : t :=
  (run [Write "ab"; Pause] (new no_options)).1.

End Scenarios.

(** ** [Number(text)]: the conversion of a string to a number

    The conversion is the language's own ([StringToNumber]): white space
    is trimmed, the empty text is [0], and the rest must be, as a whole,
    a signed decimal literal, [Infinity] with an optional sign, or an
    unsigned binary, octal or hexadecimal integer literal; anything else
    is [NaN]. A finite value is kept as the decimal the text denotes,
    [mantissa * 10 ^ exponent]; only the rounding of large values to
    infinity is modelled, not the rounding of finite values to binary64. *)

Module JsNumber.

Inductive number : Type :=
| NaN
| Infinity (negative : bool)
| Finite (negative : bool) (mantissa : Z) (exponent : Z).

Definition isNaN (n : number) : bool :=
  match n with NaN => true | _ => false end.

(** [n === Infinity] *)
Definition is_positive_infinity (n : number) : bool :=
  match n with Infinity false => true | _ => false end.

(** The white space and line terminator code units below 256. *)
Definition is_white_space (c : ascii) : bool :=
  let n := Z.of_N (N_of_ascii c) in
  ((9 <=? n) && (n <=? 13)) || (n =? 32) || (n =? 160).

Fixpoint trim_start (s : string) : string :=
  match s with
  | String c s' => if is_white_space c then trim_start s' else s
  | "" => ""
  end.

Definition trim (s : string) : string :=
  String.rev (trim_start (String.rev (trim_start s))).

(** The value of a digit in the given base, if it is one. *)
Definition digit_of (base : Z) (c : ascii) : option Z :=
  let n := Z.of_N (N_of_ascii c) in
  let v :=
    if (48 <=? n) && (n <=? 57) then Some (n - 48)
    else if (97 <=? n) && (n <=? 102) then Some (n - 87)
    else if (65 <=? n) && (n <=? 70) then Some (n - 55)
    else None in
  match v with
  | Some d => if d <? base then Some d else None
  | None => None
  end.

(** Reads the longest run of digits at the head of the text: the value
    accumulated, the number of digits read, and the rest of the text. *)
Fixpoint scan_digits (base : Z) (s : string) (acc : Z) (n : Z)
  : Z * Z * string :=
  match s with
  | String c s' =>
      match digit_of base c with
      | Some d => scan_digits base s' (acc * base + d) (n + 1)
      | None => (acc, n, s)
      end
  | "" => (acc, n, "")
  end.

(** The least magnitude that rounds to infinity: [2^1024 - 2^970]. *)
Definition overflow_bound : Z := 2 ^ 1024 - 2 ^ 970.

Definition overflows (mantissa exponent : Z) : bool :=
  if 0 <=? exponent
  then overflow_bound <=? mantissa * 10 ^ exponent
  else overflow_bound * 10 ^ (- exponent) <=? mantissa.

Definition rounded (negative : bool) (mantissa exponent : Z) : number :=
  if overflows mantissa exponent then Infinity negative
  else Finite negative mantissa exponent.

(** The exponent part, which must end the text. *)
Definition exponent_part (negative : bool) (mantissa exponent : Z)
  (s : string) : number :=
  match s with
  | "" => rounded negative mantissa exponent
  | String c s' =>
      if Ascii.eqb c "e" || Ascii.eqb c "E" then
        let '(sign, s'') :=
          match s' with
          | String "+" r => (1, r)
          | String "-" r => (-1, r)
          | _ => (1, s')
          end in
        match scan_digits 10 s'' 0 0 with
        | (x, n, "") =>
            if 0 <? n then rounded negative mantissa (exponent + sign * x)
            else NaN
        | _ => NaN
        end
      else NaN
  end.

(** An unsigned decimal literal: digits, then optionally a dot and more
    digits, with at least one digit in all, then an optional exponent. *)
Definition unsigned_decimal (negative : bool) (s : string) : number :=
  if String.eqb s "Infinity" then Infinity negative
  else
    let '(int_part, n1, r1) := scan_digits 10 s 0 0 in
    match r1 with
    | String "." r2 =>
        let '(mantissa, n2, r3) := scan_digits 10 r2 int_part 0 in
        if 0 <? n1 + n2 then exponent_part negative mantissa (- n2) r3
        else NaN
    | _ =>
        if 0 <? n1 then exponent_part negative int_part 0 r1 else NaN
    end.

(** A binary, octal or hexadecimal integer literal, after its prefix. *)
Definition radix_literal (base : Z) (s : string) : number :=
  match scan_digits base s 0 0 with
  | (v, n, "") => if 0 <? n then rounded false v 0 else NaN
  | _ => NaN
  end.

Definition Number (text : string) : number :=
  match trim text with
  | "" => Finite false 0 0
  | String "0" (String "x" r) | String "0" (String "X" r) => radix_literal 16 r
  | String "0" (String "o" r) | String "0" (String "O" r) => radix_literal 8 r
  | String "0" (String "b" r) | String "0" (String "B" r) => radix_literal 2 r
  | String "+" r => unsigned_decimal false r
  | String "-" r => unsigned_decimal true r
  | s => unsigned_decimal false s
  end.

End JsNumber.

(** ** [CSV] *)

Module CSV.
Import JsNumber.

(** A typed cell value. [SInherited] is a member that the object literal
    [SpecialValues] inherits from [Object.prototype], found by a lookup
    under its name. *)
Inductive Scalar : Type :=
| SNull
| SNumber (n : number)
| SDate (time : Z)
| SBoolean (b : bool)
| SError (code : string)
| SString (s : string)
| SInherited (name : string).

Definition Row : Type := list Scalar.

(** The own properties of [SpecialValues]. *)
Definition SpecialValues_own : list (string * Scalar) :=
  [ ("true", SBoolean true);
    ("false", SBoolean false);
    ("#N/A", SError "#N/A");
    ("#REF!", SError "#REF!");
    ("#NAME?", SError "#NAME?");
    ("#DIV/0!", SError "#DIV/0!");
    ("#NULL!", SError "#NULL!");
    ("#VALUE!", SError "#VALUE!");
    ("#NUM!", SError "#NUM!") ].

(** The property names of [Object.prototype]. *)
Definition Object_prototype : list string :=
  [ "constructor"; "hasOwnProperty"; "isPrototypeOf"; "propertyIsEnumerable";
    "toLocaleString"; "toString"; "valueOf"; "__proto__";
    "__defineGetter__"; "__defineSetter__"; "__lookupGetter__";
    "__lookupSetter__" ].

Fixpoint assoc (key : string) (props : list (string * Scalar)) : option Scalar :=
  match props with
  | [] => None
  | (k, v) :: props' => if String.eqb key k then Some v else assoc key props'
  end.

(** [SpecialValues[key]]; [None] is [undefined]. *)
Definition SpecialValues (key : string) : option Scalar :=
  match assoc key SpecialValues_own with
  | Some v => Some v
  | None =>
      if existsb (String.eqb key) Object_prototype
      then Some (SInherited key) else None
  end.

Definition default_dateFormats : list string :=
  [ "YYYY-MM-DD[T]HH:mm:ssZ"; "YYYY-MM-DD[T]HH:mm:ss"; "MM-DD-YYYY";
    "YYYY-MM-DD" ].

(** What the record parser emits while the source stream is piped into
    it: a record, the end of the stream, or an error. *)
Inductive parser_event : Type :=
| Data (record : list string)
| EndOfStream
| ParseError (message : string).

Inductive error : Type :=
| FileNotFound (filename : string)
| StreamError (message : string).

(** How a promise ends; [Pending] is a promise that never settles. *)
Inductive outcome (A : Type) : Type :=
| Resolved (value : A)
| Rejected (reason : error)
| Pending.
Arguments Resolved {A} value.
Arguments Rejected {A} reason.
Arguments Pending {A}.

(** What is done to the read stream of a file. *)
Inductive stream_op : Type :=
| CreateReadStream (filename : string)
| Close (filename : string).

Record read_options : Type := mkReadOptions {
  dateFormats : option (list string);
  map_ : option (string -> Scalar);
  sheetName : option string
}.

Section Reader.

(** [dayjs(datum, format, true)]: the strict parse of a text in a date
    format by the dayjs library; [Some time] when the result is valid,
    with [time] its [valueOf()]. *)
Variable dayjs : string -> string -> option Z.

(** [utils.fs.exists] and, for a file, the events of the record parser
    when the file's read stream is piped into it. *)
Variable exists_ : string -> bool.
Variable parsed : string -> list parser_event.

(** The callback of [dateFormats.reduce]. *)
Definition first_valid (datum : string) (matchingDate : option Z)
  (currentDateFormat : string) : option Z :=
  match matchingDate with
  | Some d => Some d
  | None => dayjs datum currentDateFormat
  end.

Definition defaultMap (dateFormats : list string) (datum : string) : Scalar :=
  if String.eqb datum "" then SNull
  else
    let datumNumber := Number datum in
    if negb (isNaN datumNumber) && negb (is_positive_infinity datumNumber)
    then SNumber datumNumber
    else
      match fold_left (first_valid datum) dateFormats None with
      | Some time => SDate time
      | None =>
          match SpecialValues datum with
          | Some special => special
          | None => SString datum
          end
      end.

(** The handlers of [read] on the parser's events, from the table built
    so far. *)
Fixpoint read_events (mapper : string -> Scalar) (sheet : option string)
  (events : list parser_event) (worksheets : gmap (option string) (list Row))
  : outcome (gmap (option string) (list Row)) :=
  match events with
  | [] => Pending
  | Data data :: events' =>
      let rows := default [] (worksheets !! sheet) in
      read_events mapper sheet events'
        (<[sheet := rows ++ [map mapper data]]> worksheets)
  | EndOfStream :: _ => Resolved worksheets
  | ParseError message :: _ => Rejected (StreamError message)
  end.

Definition read (events : list parser_event) (options : read_options)
  : outcome (gmap (option string) (list Row)) :=
  let formats := default default_dateFormats (dateFormats options) in
  let mapper := default (defaultMap formats) (map_ options) in
  read_events mapper (sheetName options) events ∅.

(** [readFile], with the operations on the file's read stream in order. *)
Definition readFile (filename : string) (options : read_options)
  : outcome (gmap (option string) (list Row)) * list stream_op :=
  if negb (exists_ filename) then (Rejected (FileNotFound filename), [])
  else
    match read (parsed filename) options with
    | Resolved worksheets =>
        (Resolved worksheets, [CreateReadStream filename; Close filename])
    | Rejected reason => (Rejected reason, [CreateReadStream filename])
    | Pending => (Pending, [CreateReadStream filename])
    end.

(** The handlers of [streamFile] on the parser's events: [rows] is the
    batch being filled, [batches] the calls of [processBatch] so far, each
    with the content of the array at the call (the array itself is passed,
    and emptied when the call has returned). *)
Fixpoint stream_events (events : list parser_event)
  (rows : list (list string)) (batches : list (list (list string)))
  : outcome unit * list (list (list string)) :=
  match events with
  | [] => (Pending, batches)
  | Data row :: events' =>
      let rows' := rows ++ [row] in
      if (1000 <=? length rows')%nat
      then stream_events events' [] (batches ++ [rows'])
      else stream_events events' rows' batches
  | EndOfStream :: _ =>
      (Resolved tt,
       if (0 <? length rows)%nat then batches ++ [rows] else batches)
  | ParseError message :: _ => (Rejected (StreamError message), batches)
  end.

Definition streamFile (filename : string)
  : outcome unit * list (list (list string)) :=
  stream_events (parsed filename) [] [].

End Reader.

End CSV.

(** ** A strict date parser

    A parser of the kind [CSV.defaultMap] is given by dayjs, for formats
    made of [YYYY], [MM], [DD], [HH], [mm], [ss], [Z], one-letter escapes
    such as [[T]] and separators, on a machine in the UTC time zone: in
    strict mode a text is valid when it has exactly the shape of the
    format and names an existing date and time. *)

Module StrictDate.

Inductive field : Type :=
| Year | Month | Day | Hour | Minute | Second | Offset
| Literal (c : ascii).

Fixpoint fields (format : string) : list field :=
  match format with
  | "" => []
  | String "Y" (String "Y" (String "Y" (String "Y" r))) => Year :: fields r
  | String "M" (String "M" r) => Month :: fields r
  | String "D" (String "D" r) => Day :: fields r
  | String "H" (String "H" r) => Hour :: fields r
  | String "m" (String "m" r) => Minute :: fields r
  | String "s" (String "s" r) => Second :: fields r
  | String "Z" r => Offset :: fields r
  | String "[" (String c (String "]" r)) => Literal c :: fields r
  | String c r => Literal c :: fields r
  end.

Definition digit (c : ascii) : option Z := JsNumber.digit_of 10 c.

(** Exactly [n] digits at the head of the text. *)
Fixpoint number_of (n : nat) (s : string) (acc : Z) : option (Z * string) :=
  match n with
  | O => Some (acc, s)
  | S n' =>
      match s with
      | String c s' =>
          match digit c with
          | Some d => number_of n' s' (acc * 10 + d)
          | None => None
          end
      | "" => None
      end
  end.

Record parts : Type := mkParts {
  year : Z; month : Z; day : Z; hours : Z; minutes : Z; seconds : Z
}.

Definition set_field (f : field) (v : Z) (p : parts) : parts :=
  match f with
  | Year => mkParts v (month p) (day p) (hours p) (minutes p) (seconds p)
  | Month => mkParts (year p) v (day p) (hours p) (minutes p) (seconds p)
  | Day => mkParts (year p) (month p) v (hours p) (minutes p) (seconds p)
  | Hour => mkParts (year p) (month p) (day p) v (minutes p) (seconds p)
  | Minute => mkParts (year p) (month p) (day p) (hours p) v (seconds p)
  | Second => mkParts (year p) (month p) (day p) (hours p) (minutes p) v
  | _ => p
  end.

Fixpoint scan (fs : list field) (s : string) (p : parts) : option parts :=
  match fs with
  | [] => if String.eqb s "" then Some p else None
  | Literal c :: fs' =>
      match s with
      | String c' s' => if Ascii.eqb c c' then scan fs' s' p else None
      | "" => None
      end
  | Offset :: fs' =>
      if String.prefix "+00:00" s
      then scan fs' (String.substring 6 (String.length s - 6) s) p
      else None
  | f :: fs' =>
      match number_of (match f with Year => 4 | _ => 2 end) s 0 with
      | Some (v, s') => scan fs' s' (set_field f v p)
      | None => None
      end
  end.

Definition leap (y : Z) : bool :=
  ((y mod 4 =? 0) && negb (y mod 100 =? 0)) || (y mod 400 =? 0).

Definition days_in_month (y m : Z) : Z :=
  if m =? 2 then (if leap y then 29 else 28)
  else if (m =? 4) || (m =? 6) || (m =? 9) || (m =? 11) then 30
  else 31.

(** The days from 1 January 1970 to a date of the civil calendar. *)
Definition days_from_civil (y m d : Z) : Z :=
  let y' := if m <=? 2 then y - 1 else y in
  let era := y' / 400 in
  let yoe := y' - era * 400 in
  let doy := (153 * (if 2 <? m then m - 3 else m + 9) + 2) / 5 + d - 1 in
  let doe := yoe * 365 + yoe / 4 - yoe / 100 + doy in
  era * 146097 + doe - 719468.

Definition valid (p : parts) : bool :=
  (100 <=? year p) && (1 <=? month p) && (month p <=? 12) &&
  (1 <=? day p) && (day p <=? days_in_month (year p) (month p)) &&
  (hours p <=? 23) && (minutes p <=? 59) && (seconds p <=? 59).

Definition time_of (p : parts) : Z :=
  days_from_civil (year p) (month p) (day p) * 86400000
  + hours p * 3600000 + minutes p * 60000 + seconds p * 1000.

Definition parse (datum format : string) : option Z :=
  match scan (fields format) datum (mkParts 0 0 0 0 0 0) with
  | Some p => if valid p then Some (time_of p) else None
  | None => None
  end.

End StrictDate.

(** ** Texts and settings, for the statements about the line buffer *)

Module LineBufferAux.
Import Split LineBuffer.

(** [frags.join("\n")] *)
Fixpoint join_lf (frags : list string) : string :=
  match frags with
  | [] => ""
  | [x] => x
  | x :: rest => x +:+ NL +:+ join_lf rest
  end.

(** Whether a carriage return directly followed by a line feed occurs. *)
Fixpoint has_crlf (s : string) : bool :=
  match s with
  | "" => false
  | String c s' =>
      (Ascii.eqb c CR
       && match s' with String c' _ => Ascii.eqb c' LF | "" => false end)
      || has_crlf s'
  end.

(** The fields that [write], [_flush] and [end] never assign. *)
Definition same_settings (a b : t) : Prop :=
  corked b = corked a /\ _paused b = _paused a /\
  lineDelimiter b = lineDelimiter a /\ transformFn b = transformFn a /\
  maxBufferSize b = maxBufferSize a /\
  progressCallback b = progressCallback a /\
  flushLineCount b = flushLineCount a.

(** The final fragment that [end] emits, if the text does not end with a
    delimiter. *)
Definition final_line (frags : list string) : list string :=
  if String.eqb (List.last frags "") "" then [] else [List.last frags ""].

(** The counts passed to the progress callback, in order. *)
Definition progress_of (evs : list event) : list Z :=
  omap (fun e => match e with Progress n => Some n | _ => None end) evs.

End LineBufferAux.

(** ** [mapColumns], and texts made of white space *)

Module CSVAux.
Import JsNumber CSV.

(** Whether every code unit of the text is white space for [Number]. *)
Fixpoint all_white_space (s : string) : bool :=
  match s with
  | "" => true
  | String c s' => is_white_space c && all_white_space s'
  end.

(** The seven error codes of [SpecialValues]. *)
Definition error_codes : list string :=
  [ "#N/A"; "#REF!"; "#NAME?"; "#DIV/0!"; "#NULL!"; "#VALUE!"; "#NUM!" ].

(** The mapper that [read] uses for the given options. *)
Definition mapper_of (dayjs : string -> string -> option Z)
  (options : read_options) : string -> Scalar :=
  default (defaultMap dayjs (default default_dateFormats (dateFormats options)))
          (map_ options).

Section Columns.

Variable V : Type.

(** [mapColumns(columns)], the function it returns: [columns] is absent or
    an array whose entries are a function or nothing. *)
Definition mapColumns (columns : option (list (option (V -> V))))
  (value : V) (columnIndex : nat) : V :=
  match columns with
  | Some cols =>
      match cols !! columnIndex with
      | Some (Some f) => f value
      | _ => value
      end
  | None => value
  end.

(** [values.map(mapColumns(columns))] *)
Definition map_row (columns : option (list (option (V -> V))))
  (values : list V) : list V :=
  imap (fun columnIndex value => mapColumns columns value columnIndex) values.

End Columns.

End CSVAux.

(** ** [StreamConverter]: the write path

    Chunks and byte order marks are [Buffer]s, lists of bytes; a chunk
    given as a string is first made a [Buffer] by [Buffer.from], which is
    not modelled. The inner stream is modelled by the calls made on it, in
    order, and does not throw. The module variable [jconv] is declared and
    never assigned, so the call [jconv.convert] throws a [TypeError]. *)

Module StreamConverter.

Definition Buffer : Type := list Byte.byte.

Inductive error : Type :=
| InvalidEncoding (encoding : string)
| JconvUndefined.

(** A call made by the converter: [inner.write(chunk, encoding, callback)],
    the caller's callback, or [customErrorHandler(err)]. *)
Inductive effect : Type :=
| InnerWrite (chunk : Buffer) (encoding : option string) (callback : bool)
| Callback
| Handled (err : error).

Inductive completion : Type :=
| Returned
| Threw (err : error).

Record t : Type := mk {
  innerEncoding : string;
  outerEncoding : string;
  innerBOM : option Buffer;
  outerBOM : option Buffer;
  writeStarted : bool;
  detectEncoding : bool;
  customErrorHandler : bool
}.

Record options : Type := mkOptions {
  opt_innerEncoding : option string;
  opt_outerEncoding : option string;
  opt_innerBOM : option Buffer;
  opt_outerBOM : option Buffer;
  opt_detectEncoding : bool;
  opt_customErrorHandler : bool
}.

Definition validEncodings : list string :=
  [ "UTF8"; "UTF16"; "ASCII"; "BASE64"; "UTF32"; "ISO-8859-1";
    "WINDOWS-1252" ].

Section Converter.

(** [String.prototype.toUpperCase] *)
Variable toUpperCase : string -> string.

(** [options.encoding || 'UTF8']: absent and empty give the default. *)
Definition encoding_or_default (e : option string) : string :=
  match e with
  | Some "" | None => "UTF8"
  | Some s => s
  end.

Definition new (o : options) : t :=
  {| innerEncoding := toUpperCase (encoding_or_default (opt_innerEncoding o));
     outerEncoding := toUpperCase (encoding_or_default (opt_outerEncoding o));
     innerBOM := opt_innerBOM o;
     outerBOM := opt_outerBOM o;
     writeStarted := false;
     detectEncoding := opt_detectEncoding o;
     customErrorHandler := opt_customErrorHandler o |}.

(** [validateEncoding(encoding)]: the error thrown, if any. *)
Definition validateEncoding (encoding : string) : option error :=
  if existsb (String.eqb (toUpperCase encoding)) validEncodings
  then None else Some (InvalidEncoding encoding).

(** The two validations that [write] runs when [detectEncoding] is set. *)
Definition validation (sc : t) : option error :=
  if detectEncoding sc then
    match validateEncoding (outerEncoding sc) with
    | Some err => Some err
    | None => validateEncoding (innerEncoding sc)
    end
  else None.

(** [convertInwards(data)] on a [Buffer], which is always truthy. *)
Definition convertInwards (sc : t) (data : Buffer) : error + Buffer :=
  if String.eqb (innerEncoding sc) (outerEncoding sc) then inr data
  else inl JconvUndefined.

Definition started (sc : t) : t :=
  mk (innerEncoding sc) (outerEncoding sc) (innerBOM sc) (outerBOM sc) true
     (detectEncoding sc) (customErrorHandler sc).

(** [write(data, encoding, callback)], after a callback passed in the
    place of [encoding] has been moved to its place. *)
Definition write (data : Buffer) (encoding : option string) (callback : bool)
  (sc : t) : t * list effect * completion :=
  let bom_written :=
    if writeStarted sc then []
    else match innerBOM sc with
         | Some bom => [InnerWrite bom None false]
         | None => []
         end in
  let stripped :=
    if writeStarted sc then Some data
    else match outerBOM sc with
         | Some bom =>
             if (length data <=? length bom)%nat then None
             else Some (drop (length bom) data)
         | None => Some data
         end in
  match stripped with
  | None => (sc, bom_written ++ (if callback then [Callback] else []), Returned)
  | Some data' =>
      let sc' := if writeStarted sc then sc else started sc in
      match validation sc' with
      | Some err => (sc', bom_written, Threw err)
      | None =>
          match convertInwards sc' data' with
          | inr converted =>
              (sc',
               bom_written ++
               [InnerWrite converted
                  (match encoding with
                   | Some "" | None => None
                   | Some _ => Some (innerEncoding sc')
                   end)
                  callback],
               Returned)
          | inl err =>
              if customErrorHandler sc'
              then (sc', bom_written ++ [Handled err], Returned)
              else (sc', bom_written, Threw err)
          end
      end
  end.

(** A sequence of writes of chunks, without encoding or callback. *)
Fixpoint writes (chunks : list Buffer) (sc : t)
  : t * list effect * list completion :=
  match chunks with
  | [] => (sc, [], [])
  | chunk :: chunks' =>
      let '(sc1, effects1, done1) := write chunk None false sc in
      let '(sc2, effects2, done2) := writes chunks' sc1 in
      (sc2, effects1 ++ effects2, done1 :: done2)
  end.

End Converter.

(** The chunks written to the inner stream, in order. *)
Definition inner_chunks (effects : list effect) : list Buffer :=
  omap (fun e => match e with InnerWrite chunk _ _ => Some chunk | _ => None end)
       effects.


(** An upper-casing of the letters [a] to [z]; it agrees with
    [toUpperCase] on texts of ASCII code units. *)
Fixpoint upper_ascii (s : string) : string :=
  match s with
  | "" => ""
  | String c s' =>
      let n := N_of_ascii c in
      String (if (97 <=? n)%N && (n <=? 122)%N then ascii_of_N (n - 32) else c)
             (upper_ascii s')
  end.

(** The UTF-8 byte order mark. *)
Definition utf8_mark : Buffer := [Byte.xef; Byte.xbb; Byte.xbf].



(** A converter between two encodings, with an error handler. *)
Definition utf16_converter : t :=
  new upper_ascii
      (mkOptions (Some "utf16") (Some "utf8") (Some utf8_mark) None false true).

End StreamConverter.

(** * Properties *)

(** ** Splitting on the default pattern *)

Module SplitFacts.
Import Split.

Lemma append_cons (c : ascii) (a b : string) :
  String c a +:+ b = String c (a +:+ b).
Proof. reflexivity. Qed.

Lemma append_empty_r (a : string) : a +:+ "" = a.
Proof. induction a as [|c a IH]; [reflexivity|]. rewrite append_cons, IH. reflexivity. Qed.

Lemma append_assoc (a b c : string) : (a +:+ b) +:+ c = a +:+ (b +:+ c).
Proof.
  induction a as [|x a IH]; [reflexivity|]. rewrite !append_cons, IH. reflexivity.
Qed.

Lemma split_crlf_LF (s : string) :
  split_crlf (String LF s) = "" :: split_crlf s.
Proof. reflexivity. Qed.

Lemma split_crlf_CRLF (s : string) :
  split_crlf (String CR (String LF s)) = "" :: split_crlf s.
Proof. reflexivity. Qed.

Lemma split_crlf_other (c : ascii) (s : string) :
  c <> LF -> ~ crlf_head c s ->
  split_crlf (String c s) = cons_head c (split_crlf s).
Proof.
  intros Hc Hn. cbn [split_crlf].
  destruct (Ascii.eqb_spec c LF) as [->|_]; [congruence|].
  destruct s as [|c' s'']; [reflexivity|].
  destruct (Ascii.eqb_spec c CR) as [->|_]; [|reflexivity].
  destruct (Ascii.eqb_spec c' LF) as [->|_]; [|reflexivity].
  exfalso. apply Hn. split; eauto.
Qed.

(** Induction along the scan of [split_crlf]. *)
Lemma crlf_ind (P : string -> Prop) :
  P "" ->
  (forall s, P s -> P (String LF s)) ->
  (forall s, P s -> P (String CR (String LF s))) ->
  (forall c s, c <> LF -> ~ crlf_head c s -> P s -> P (String c s)) ->
  forall s, P s.
Proof.
  intros H0 Hlf Hcrlf Hother s.
  assert (H : P s /\ forall c, P (String c s)); [|tauto].
  induction s as [|a s [IH1 IH2]].
  - split; [assumption|]. intros c.
    destruct (Ascii.eqb_spec c LF) as [->|Hc]; [auto|].
    apply Hother; auto. intros [_ [s' Hs']]. discriminate.
  - split; [apply IH2|]. intros c.
    destruct (Ascii.eqb_spec c LF) as [->|Hc]; [auto|].
    destruct (Ascii.eqb_spec c CR) as [->|Hr].
    + destruct (Ascii.eqb_spec a LF) as [->|Ha]; [auto|].
      apply Hother; auto. intros [_ [s' Hs']]. congruence.
    + apply Hother; auto. intros [? _]. congruence.
Qed.

Lemma cons_head_nonempty (c : ascii) (l : list string) : cons_head c l <> [].
Proof. destruct l; discriminate. Qed.

Lemma split_crlf_nonempty (s : string) : split_crlf s <> [].
Proof.
  induction s using crlf_ind.
  - discriminate.
  - rewrite split_crlf_LF. discriminate.
  - rewrite split_crlf_CRLF. discriminate.
  - rewrite split_crlf_other by assumption. apply cons_head_nonempty.
Qed.

(** A text in which the pattern does not occur is its own only fragment. *)
Lemma split_crlf_single (s h : string) : split_crlf s = [h] -> h = s.
Proof.
  revert h. induction s using crlf_ind; intros h.
  - intros [= <-]. reflexivity.
  - rewrite split_crlf_LF. intros [= _ Hs].
    destruct (split_crlf_nonempty _ Hs).
  - rewrite split_crlf_CRLF. intros [= _ Hs].
    destruct (split_crlf_nonempty _ Hs).
  - rewrite split_crlf_other by assumption.
    destruct (split_crlf s) as [|h' [|]] eqn:E; cbn; intros [= <-].
    + destruct (split_crlf_nonempty _ E).
    + f_equal. apply IHs. reflexivity.
Qed.

Lemma removelast_cons_head (c : ascii) (h : string) (t : list string) :
  t <> [] ->
  removelast (cons_head c (h :: t)) = cons_head c (removelast (h :: t)).
Proof. destruct t; [congruence|]. reflexivity. Qed.

Lemma last_cons_head (c : ascii) (h : string) (t : list string) :
  t <> [] -> List.last (cons_head c (h :: t)) "" = List.last (h :: t) "".
Proof. destruct t; [congruence|]. reflexivity. Qed.

(** Splitting a text that continues: the complete fragments of the first
    part stay, and the scan goes on from its last fragment. *)
Lemma split_crlf_app (a b : string) :
  split_crlf (a +:+ b) =
  removelast (split_crlf a) ++ split_crlf (List.last (split_crlf a) "" +:+ b).
Proof.
  induction a as [| a IH | a IH | c a Hc Hn IH] using crlf_ind.
  - reflexivity.
  - rewrite append_cons, !split_crlf_LF, IH.
    pose proof (split_crlf_nonempty a).
    destruct (split_crlf a); [congruence|]. reflexivity.
  - rewrite !append_cons, !split_crlf_CRLF, IH.
    pose proof (split_crlf_nonempty a).
    destruct (split_crlf a); [congruence|]. reflexivity.
  - rewrite (split_crlf_other c a) by assumption.
    destruct (split_crlf a) as [|h [|h' t]] eqn:E.
    + destruct (split_crlf_nonempty _ E).
    + apply split_crlf_single in E. subst h. reflexivity.
    + assert (Hn' : ~ crlf_head c (a +:+ b)).
      { intros [-> [s' Hs']]. apply Hn. split; [reflexivity|].
        destruct a as [|x a']; [discriminate E|].
        rewrite append_cons in Hs'. injection Hs' as -> _. eauto. }
      rewrite append_cons, split_crlf_other by assumption.
      rewrite IH. reflexivity.
Qed.

(** The last fragment contains no occurrence of the pattern. *)
Lemma split_crlf_last (s : string) :
  split_crlf (List.last (split_crlf s) "") = [List.last (split_crlf s) ""].
Proof.
  pose proof (split_crlf_app s "") as H.
  rewrite !append_empty_r in H.
  rewrite (app_removelast_last "" (split_crlf_nonempty s)) in H at 1.
  apply app_inv_head in H. congruence.
Qed.

(** There is one complete fragment per occurrence of the pattern. *)
Lemma split_crlf_length (s : string) :
  length (split_crlf s) = S (delimiter_count s).
Proof.
  induction s using crlf_ind.
  - reflexivity.
  - rewrite split_crlf_LF. cbn. congruence.
  - rewrite split_crlf_CRLF. cbn. congruence.
  - rewrite split_crlf_other by assumption.
    cbn [delimiter_count].
    destruct (Ascii.eqb_spec c LF); [congruence|].
    rewrite <- IHs. pose proof (split_crlf_nonempty s).
    destruct (split_crlf s); [congruence|reflexivity].
Qed.

Lemma complete_lines_count (s : string) :
  length (removelast (split_crlf s)) = delimiter_count s.
Proof.
  pose proof (split_crlf_length s) as H.
  pose proof (split_crlf_nonempty s) as Hne.
  rewrite (app_removelast_last "" Hne) in H.
  rewrite length_app in H. cbn in H. lia.
Qed.

Lemma concat_chunks_app (xs ys : list string) :
  concat_chunks (xs ++ ys) = concat_chunks xs +:+ concat_chunks ys.
Proof.
  induction xs as [|x xs IH]; [reflexivity|].
  cbn [app concat_chunks]. rewrite IH, append_assoc. reflexivity.
Qed.

End SplitFacts.

(** ** The line buffer *)

Module LineBufferFacts.
Import Split SplitFacts LineBuffer.

Lemma lines_of_app (xs ys : list event) :
  lines_of (xs ++ ys) = lines_of xs ++ lines_of ys.
Proof. apply omap_app. Qed.

Lemma lines_of_Line (l : string) (evs : list event) :
  lines_of (Line l :: evs) = l :: lines_of evs.
Proof. reflexivity. Qed.

Lemma lines_of_map_Line (f : string -> string) (ls : list string) :
  lines_of (map (fun l => Line (f l)) ls) = map f ls.
Proof. induction ls as [|l ls IH]; cbn; [reflexivity|]. f_equal. exact IH. Qed.

Lemma _flush_uncorked (lb : t) :
  corked lb = false ->
  _flush lb =
  (set_queue [] lb, map (fun line => Line (transformed lb line)) (queue lb)).
Proof.
  intros Hc. unfold _flush. rewrite Hc.
  destruct lb as [b q n c m f p d pc fl]. cbn in *.
  destruct q; reflexivity.
Qed.

Lemma _flush_corked (lb : t) : corked lb = true -> _flush lb = (lb, []).
Proof. intros Hc. unfold _flush. rewrite Hc. reflexivity. Qed.

Lemma _flush_empty (lb : t) : queue lb = [] -> _flush lb = (lb, []).
Proof.
  intros Hq. unfold _flush. rewrite Hq, andb_false_r. reflexivity.
Qed.

(** While corked, [forEach] only appends to the queue. *)
Lemma fold_write_line_corked (lines : list string) (lb : t) (evs : list event) :
  corked lb = true ->
  fold_left write_line lines (lb, evs) = (set_queue (queue lb ++ lines) lb, evs).
Proof.
  revert lb. induction lines as [|l ls IH]; intros lb Hc.
  - rewrite app_nil_r. destruct lb; reflexivity.
  - cbn [fold_left write_line]. rewrite Hc, IH by (destruct lb; exact Hc).
    destruct lb; cbn. rewrite <- app_assoc. reflexivity.
Qed.

(** Uncorked with an empty queue, [forEach] emits every line, transformed
    and counted, and the queue stays empty. *)
Lemma fold_write_line_open (lines : list string) (lb : t) (evs : list event) :
  corked lb = false -> queue lb = [] ->
  exists evs',
    fold_left write_line lines (lb, evs) =
    (set_lineCount (lineCount lb + Z.of_nat (length lines)) lb, evs ++ evs') /\
    lines_of evs' = map (transformed lb) lines.
Proof.
  revert lb evs. induction lines as [|l ls IH]; intros lb evs Hc Hq.
  - exists []. rewrite app_nil_r, Z.add_0_r. destruct lb; split; reflexivity.
  - cbn [fold_left write_line]. rewrite Hc.
    set (lb1 := set_lineCount (lineCount lb + 1) lb).
    set (evs1 := evs ++ _).
    assert (Hstep : (if threshold_reached lb1
                     then let '(lb2, fl) := _flush lb1 in (lb2, evs1 ++ fl)
                     else (lb1, evs1)) = (lb1, evs1)).
    { destruct (threshold_reached lb1); [|reflexivity].
      rewrite _flush_empty by (destruct lb; exact Hq).
      rewrite app_nil_r. reflexivity. }
    rewrite Hstep.
    destruct (IH lb1 evs1) as [evs' [Hf Hl]];
      [destruct lb; exact Hc | destruct lb; exact Hq |].
    exists (Line (transformed lb l)
              :: (if progressCallback lb1 then [Progress (lineCount lb1)] else [])
              ++ evs').
    split.
    + rewrite Hf. subst evs1 lb1. destruct lb.
      unfold set_lineCount; cbn.
      rewrite <- app_assoc. cbn.
      replace (lineCount0 + Z.of_nat (S (length ls)))
        with (lineCount0 + 1 + Z.of_nat (length ls)) by lia.
      reflexivity.
    + rewrite lines_of_Line, lines_of_app, Hl.
      destruct (progressCallback lb1); destruct lb; reflexivity.
Qed.

Lemma write_paused (chunk : string) (lb : t) :
  _paused lb = true -> write chunk lb = (false, lb, []).
Proof. intros Hp. unfold write. rewrite Hp. reflexivity. Qed.

(** A write on a corked buffer emits nothing: complete lines join the
    queue, and the flush for an oversized pending text does nothing. *)
Lemma write_corked (chunk : string) (lb : t) :
  _paused lb = false -> corked lb = true ->
  let frags := split (lineDelimiter lb) (buffer lb +:+ chunk) in
  write chunk lb =
  (false,
   set_queue (queue lb ++ removelast frags) (set_buffer (List.last frags "") lb),
   []).
Proof.
  intros Hp Hc frags. unfold write. rewrite Hp. fold frags. unfold pop.
  rewrite fold_write_line_corked by (destruct lb; exact Hc).
  set (lb1 := set_queue _ _).
  assert (Hc1 : corked lb1 = true) by (destruct lb; exact Hc).
  rewrite (_flush_corked lb1 Hc1).
  destruct (_ >? _); rewrite Hc1; reflexivity.
Qed.

Lemma write_open (chunk : string) (lb : t) :
  _paused lb = false -> corked lb = false -> queue lb = [] ->
  let frags := split (lineDelimiter lb) (buffer lb +:+ chunk) in
  exists evs,
    write chunk lb =
    (true,
     set_lineCount (lineCount lb + Z.of_nat (length (removelast frags)))
       (set_buffer (List.last frags "") lb),
     evs) /\
    lines_of evs = map (transformed lb) (removelast frags).
Proof.
  intros Hp Hc Hq frags. unfold write. rewrite Hp. fold frags. unfold pop.
  destruct (fold_write_line_open (removelast frags)
              (set_buffer (List.last frags "") lb) [])
    as [evs [Hf Hl]]; [destruct lb; exact Hc | destruct lb; exact Hq |].
  rewrite Hf. set (lb1 := set_lineCount _ _).
  assert (Hq1 : queue lb1 = []) by (destruct lb; exact Hq).
  assert (Hc1 : corked lb1 = false) by (destruct lb; exact Hc).
  rewrite (_flush_empty lb1 Hq1).
  exists evs. split.
  - destruct (_ >? _); rewrite Hc1, app_nil_r; reflexivity.
  - rewrite Hl. destruct lb; reflexivity.
Qed.

Lemma last_default_app (xs ys : list string) :
  ys <> [] -> List.last (xs ++ ys) "" = List.last ys "".
Proof.
  intros Hy. induction xs as [|x xs IH]; [reflexivity|].
  cbn [app List.last]. destruct (xs ++ ys) eqn:E; [|exact IH].
  apply app_eq_nil in E. tauto.
Qed.

Lemma run_app (xs ys : list call) (lb : t) :
  run (xs ++ ys) lb =
  let '(lb1, evs1) := run xs lb in
  let '(lb2, evs2) := run ys lb1 in
  (lb2, evs1 ++ evs2).
Proof.
  revert lb. induction xs as [|x xs IH]; intros lb.
  - cbn. destruct (run ys lb). reflexivity.
  - cbn [app run]. destruct (step x lb) as [lb1 evs1]. rewrite IH.
    destruct (run xs lb1) as [lb2 evs2]. destruct (run ys lb2) as [lb3 evs3].
    rewrite app_assoc. reflexivity.
Qed.

(** Writes on an open buffer (not paused, not corked, empty queue) with
    the default pattern emit the complete lines of the whole text. *)
Lemma run_writes_open (chunks : list string) (lb : t) :
  _paused lb = false -> corked lb = false -> queue lb = [] ->
  lineDelimiter lb = CrLfPattern ->
  split_crlf (buffer lb) = [buffer lb] ->
  lines_of (run (map Write chunks) lb).2 =
  map (transformed lb)
      (removelast (split_crlf (buffer lb +:+ concat_chunks chunks))).
Proof.
  revert lb. induction chunks as [|c cs IH]; intros lb Hp Hc Hq Hd Hb.
  - cbn. rewrite append_empty_r, Hb. reflexivity.
  - cbn [map run step concat_chunks].
    destruct (write_open c lb Hp Hc Hq) as [evs [Hw Hl]].
    rewrite Hd in Hw, Hl. cbn [split] in Hw, Hl. rewrite Hw.
    set (frags := split_crlf (buffer lb +:+ c)) in *.
    set (lb1 := set_lineCount _ _).
    specialize (IH lb1).
    destruct (run (map Write cs) lb1) as [lb2 evs2]. cbn [snd] in *.
    rewrite lines_of_app, Hl, IH;
      try (destruct lb; assumption);
      [| subst lb1 frags; destruct lb; apply split_crlf_last].
    replace (transformed lb1) with (transformed lb) by (destruct lb; reflexivity).
    rewrite <- map_app. f_equal.
    replace (buffer lb1) with (List.last frags "") by (destruct lb; reflexivity).
    rewrite <- append_assoc, (split_crlf_app (buffer lb +:+ c)). fold frags.
    rewrite removelast_app by apply split_crlf_nonempty. reflexivity.
Qed.

(** Writes on a corked buffer with the default pattern queue the complete
    lines of the whole text and emit nothing. *)
Lemma run_writes_corked (chunks : list string) (lb : t) :
  _paused lb = false -> corked lb = true ->
  lineDelimiter lb = CrLfPattern ->
  split_crlf (buffer lb) = [buffer lb] ->
  let frags := split_crlf (buffer lb +:+ concat_chunks chunks) in
  run (map Write chunks) lb =
  (set_queue (queue lb ++ removelast frags) (set_buffer (List.last frags "") lb),
   []).
Proof.
  revert lb. induction chunks as [|c cs IH]; intros lb Hp Hc Hd Hb frags.
  - subst frags. cbn. rewrite append_empty_r, Hb. cbn.
    rewrite app_nil_r. destruct lb; reflexivity.
  - cbn [map run step concat_chunks].
    rewrite (write_corked c lb Hp Hc), Hd. cbn [split].
    set (f1 := split_crlf (buffer lb +:+ c)).
    set (lb1 := set_queue _ _).
    rewrite (IH lb1); try (destruct lb; assumption);
      [| subst lb1 f1; destruct lb; apply split_crlf_last].
    replace (buffer lb1) with (List.last f1 "") by (destruct lb; reflexivity).
    subst frags. cbn [concat_chunks].
    rewrite <- append_assoc, (split_crlf_app (buffer lb +:+ c)). fold f1.
    rewrite removelast_app by apply split_crlf_nonempty.
    rewrite last_default_app by apply split_crlf_nonempty.
    subst lb1. destruct lb; unfold set_queue, set_buffer; cbn.
    rewrite <- app_assoc. reflexivity.
Qed.

Lemma delimiter_count_app (a b : string) :
  delimiter_count (a +:+ b) = (delimiter_count a + delimiter_count b)%nat.
Proof.
  induction a as [|c a IH]; [reflexivity|].
  rewrite append_cons. cbn [delimiter_count]. rewrite IH.
  destruct (Ascii.eqb c LF); reflexivity.
Qed.

Lemma crlf_free_iff (s : string) :
  split_crlf s = [s] <-> delimiter_count s = O.
Proof.
  pose proof (split_crlf_length s) as Hlen. split.
  - intros H. rewrite H in Hlen. cbn in Hlen. lia.
  - intros H. rewrite H in Hlen.
    destruct (split_crlf s) as [|h [|]] eqn:E; try discriminate.
    apply split_crlf_single in E. congruence.
Qed.

Lemma crlf_free_double (s : string) :
  split_crlf s = [s] -> split_crlf (s +:+ s) = [s +:+ s].
Proof.
  rewrite !crlf_free_iff, delimiter_count_app. lia.
Qed.

End LineBufferFacts.

(** ** Flush, cork, pause and end *)

Module LineBufferTheorems.
Import Split SplitFacts LineBuffer LineBufferFacts Scenarios.

(** C1, as stated, fails: on a corked buffer the flush that [write] performs
    when the pending text exceeds [maxBufferSize] emits nothing and leaves
    the queued line in the queue. *)
Lemma flush_while_corked_keeps_queue :
  corked corked_with_line = true /\
  queue corked_with_line = ["a"] /\
  (Z.of_nat (String.length "xyz") >? maxBufferSize corked_with_line) = true /\
  write "xyz" corked_with_line =
    (false, set_buffer "xyz" corked_with_line, []) /\
  ~ (queue (_flush corked_with_line).1 = [] /\
     (_flush corked_with_line).2 =
       map (fun l => Line (transformed corked_with_line l))
           (queue corked_with_line)).
Proof.
  repeat split; try reflexivity.
  intros [H _]. vm_compute in H. discriminate.
Qed.

(** C1, amended: a flush on a buffer that is not corked emits every queued
    line, transformed, in queue order, and empties the queue; [uncork]
    always does so, since it uncorks first; a flush on a corked buffer does
    nothing, so a write on a corked buffer never emits, whatever the size
    of the pending text. *)
Theorem flush_emits_queue_unless_corked (lb : t) :
  (corked lb = false ->
   _flush lb =
   (set_queue [] lb, map (fun l => Line (transformed lb l)) (queue lb))) /\
  (corked lb = true -> _flush lb = (lb, [])) /\
  uncork lb =
  (set_queue [] (set_corked false lb),
   map (fun l => Line (transformed lb l)) (queue lb) ++ [Drain]) /\
  (forall chunk, corked lb = true ->
     (write chunk lb).2 = [] /\
     exists lines, queue (write chunk lb).1.2 = queue lb ++ lines).
Proof.
  split; [apply _flush_uncorked|]. split; [apply _flush_corked|]. split.
  - unfold uncork. rewrite _flush_uncorked by (destruct lb; reflexivity).
    destruct lb; reflexivity.
  - intros chunk Hc. destruct (_paused lb) eqn:Hp.
    + rewrite write_paused by exact Hp. split; [reflexivity|].
      exists []. rewrite app_nil_r. reflexivity.
    + rewrite (write_corked chunk lb Hp Hc). split; [reflexivity|].
      eexists. destruct lb; reflexivity.
Qed.

Lemma flush_emits_queue_unless_corked_witness :
  corked corked_with_line = true /\
  _flush corked_with_line = (corked_with_line, []) /\
  corked (set_corked false corked_with_line) = false /\
  _flush (set_corked false corked_with_line) =
    (set_queue [] (set_corked false corked_with_line), [Line "a"]) /\
  (write "xyz" corked_with_line).2 = [].
Proof.
  split; [reflexivity|]. split.
  - apply (proj1 (proj2 (flush_emits_queue_unless_corked corked_with_line))).
    reflexivity.
  - split; [reflexivity|]. split.
    + apply (proj1 (flush_emits_queue_unless_corked
                      (set_corked false corked_with_line))).
      reflexivity.
    + apply (proj2 (proj2 (proj2
               (flush_emits_queue_unless_corked corked_with_line)))).
      reflexivity.
Defined.

(** Corking, writing and uncorking with the default pattern: the complete
    lines of the text written come out in order, transformed, and
    [lineCount] is what it was at the start. *)
Lemma cork_writes_uncork (o : options) (chunks : list string) :
  opt_lineDelimiter o = None ->
  let r := run (Cork :: map Write chunks ++ [Uncork]) (new o) in
  r.2 =
    map (fun l => Line (transformed (new o) l))
        (removelast (split_crlf (concat_chunks chunks))) ++ [Drain] /\
  queue r.1 = [] /\
  lineCount r.1 = 0.
Proof.
  intros Hd r. subst r. cbn [run step cork]. rewrite run_app.
  set (lb0 := set_corked true (new o)).
  assert (Hdel : lineDelimiter lb0 = CrLfPattern).
  { unfold lb0, new. cbn. rewrite Hd. reflexivity. }
  rewrite (run_writes_corked chunks lb0); try reflexivity; try exact Hdel.
  cbn [run step]. unfold uncork.
  rewrite _flush_uncorked by reflexivity. cbn.
  repeat split. rewrite app_nil_r. reflexivity.
Qed.

(** C2, at one line sequence: after [cork()], a write of two complete lines
    and [uncork()], both lines have been emitted in order, and [lineCount]
    is still [0]: the lines a flush emits are not counted. *)
Theorem cork_write_uncork_lineCount_stays_zero :
  let r := run [Cork; Write ("a" +:+ NL +:+ "b" +:+ NL); Uncork]
               (new no_options) in
  r.2 = [Line "a"; Line "b"; Drain] /\
  lineCount r.1 = 0 /\
  (run [Write ("a" +:+ NL +:+ "b" +:+ NL)] (new no_options)).2
    = [Line "a"; Line "b"] /\
  lineCount (run [Write ("a" +:+ NL +:+ "b" +:+ NL)] (new no_options)).1 = 2.
Proof. repeat split. Qed.

(** C3: with the default pattern, on a fresh buffer that is neither paused
    nor corked, the lines emitted by a sequence of writes are the complete
    lines of the concatenated text, one per occurrence of the pattern,
    however the text is cut into chunks. *)
Theorem emitted_lines_chunk_independent (o : options) (chunks : list string) :
  opt_lineDelimiter o = None ->
  let emitted := lines_of (run (map Write chunks) (new o)).2 in
  emitted =
    map (transformed (new o))
        (removelast (split_crlf (concat_chunks chunks))) /\
  length emitted = delimiter_count (concat_chunks chunks) /\
  forall chunks',
    concat_chunks chunks' = concat_chunks chunks ->
    lines_of (run (map Write chunks') (new o)).2 = emitted.
Proof.
  intros Hd emitted.
  assert (Hdel : lineDelimiter (new o) = CrLfPattern).
  { unfold new. cbn. rewrite Hd. reflexivity. }
  assert (H : forall cs,
             lines_of (run (map Write cs) (new o)).2 =
             map (transformed (new o))
                 (removelast (split_crlf (concat_chunks cs)))).
  { intros cs. rewrite run_writes_open; try reflexivity. exact Hdel. }
  subst emitted. split; [apply H|]. split.
  - rewrite H, length_map. apply complete_lines_count.
  - intros chunks' Heq. rewrite !H, Heq. reflexivity.
Qed.

Lemma emitted_lines_chunk_independent_witness :
  opt_lineDelimiter no_options = None /\
  lines_of (run (map Write ["a" +:+ String CR ""; NL +:+ "b"; "c" +:+ NL +:+ "d"])
                (new no_options)).2 = ["a"; "bc"] /\
  lines_of (run (map Write ["a" +:+ String CR "" +:+ NL +:+ "bc" +:+ NL +:+ "d"])
                (new no_options)).2 = ["a"; "bc"].
Proof.
  split; [reflexivity|].
  pose proof (emitted_lines_chunk_independent no_options
                ["a" +:+ String CR ""; NL +:+ "b"; "c" +:+ NL +:+ "d"]
                eq_refl) as [H1 [_ H3]].
  split.
  - rewrite H1. reflexivity.
  - rewrite (H3 ["a" +:+ String CR "" +:+ NL +:+ "bc" +:+ NL +:+ "d"] eq_refl), H1.
    reflexivity.
Defined.

(** C4, as stated, fails: the pending text ["ba"] contains no separator
    ["ab"], but the doubled text ["baba"] does, so [resume] emits the line
    ["b"] and leaves ["a"] pending. *)
Lemma resume_double_can_split :
  buffer paused_with_ba = "ba" /\
  split (lineDelimiter paused_with_ba) (buffer paused_with_ba) = ["ba"] /\
  (resume paused_with_ba).2 = [Line "b"] /\
  buffer (resume paused_with_ba).1 = "a" /\
  buffer (resume paused_with_ba).1 <>
    buffer paused_with_ba +:+ buffer paused_with_ba.
Proof. repeat split. discriminate. Qed.

(** C4, amended: when the pending text is not empty and the pending text
    concatenated with itself contains no delimiter (with the default
    pattern this is so as soon as the pending text contains none),
    [resume] leaves the pending text concatenated with itself in the
    buffer, and a following [end] emits that doubled text as one line. *)
Theorem resume_doubles_pending (lb : t) :
  buffer lb <> "" ->
  (lineDelimiter lb = CrLfPattern /\ split_crlf (buffer lb) = [buffer lb]) \/
  split (lineDelimiter lb) (buffer lb +:+ buffer lb) = [buffer lb +:+ buffer lb] ->
  buffer (resume lb).1 = buffer lb +:+ buffer lb /\
  forall cb, lines_of (end_ cb (resume lb).1).2 = [buffer lb +:+ buffer lb].
Proof.
  intros Hne Hfree.
  assert (Hs : split (lineDelimiter lb) (buffer lb +:+ buffer lb)
               = [buffer lb +:+ buffer lb]).
  { destruct Hfree as [[Hd Hb]|H]; [|exact H].
    rewrite Hd. apply crlf_free_double, Hb. }
  clear Hfree.
  assert (Hb : buffer (resume lb).1 = buffer lb +:+ buffer lb).
  { unfold resume.
    replace (buffer (set_paused false lb)) with (buffer lb)
      by (destruct lb; reflexivity).
    destruct (String.eqb_spec (buffer lb) "") as [E|_]; [contradiction|].
    unfold write.
    replace (_paused (set_paused false lb)) with false
      by (destruct lb; reflexivity).
    replace (buffer (set_paused false lb)) with (buffer lb)
      by (destruct lb; reflexivity).
    replace (lineDelimiter (set_paused false lb)) with (lineDelimiter lb)
      by (destruct lb; reflexivity).
    rewrite Hs. cbn [pop removelast List.last fold_left].
    set (lb1 := set_buffer _ _).
    assert (Hfl : forall x, buffer (_flush x).1 = buffer x).
    { intros x. unfold _flush.
      destruct (negb (corked x) && _); destruct x; reflexivity. }
    destruct (_ >? _).
    - pose proof (Hfl lb1) as H1. destruct (_flush lb1) as [lb2 fl].
      pose proof (Hfl lb2) as H2. destruct (_flush lb2) as [lb3 fl'].
      cbn in *. rewrite H2, H1. destruct lb; reflexivity.
    - pose proof (Hfl lb1) as H1. destruct (_flush lb1) as [lb2 fl].
      cbn in *. rewrite H1. destruct lb; reflexivity. }
  split; [exact Hb|].
  intros cb. unfold end_. rewrite Hb.
  destruct (String.eqb_spec (buffer lb +:+ buffer lb) "") as [E|_].
  - exfalso. apply Hne. destruct (buffer lb); [reflexivity|discriminate E].
  - cbn. destruct cb; reflexivity.
Qed.

Lemma resume_doubles_pending_witness :
  buffer paused_with_ab <> "" /\
  (lineDelimiter paused_with_ab = CrLfPattern /\
   split_crlf (buffer paused_with_ab) = [buffer paused_with_ab]) /\
  buffer (resume paused_with_ab).1 = "abab" /\
  lines_of (end_ false (resume paused_with_ab).1).2 = ["abab"].
Proof.
  split; [discriminate|]. split; [split; reflexivity|].
  assert (Hne : buffer paused_with_ab <> "") by discriminate.
  destruct (resume_doubles_pending paused_with_ab Hne
              (or_introl (conj eq_refl eq_refl))) as [H1 H2].
  split; [exact H1 | exact (H2 false)].
Defined.

(** C9: a write on a paused buffer returns [false], changes nothing and
    emits nothing; so in the sequence write A, pause, write B, resume,
    write C the final state and everything emitted are the same as if B
    had never been written. *)
Theorem paused_write_is_dropped (lb : t) (A B C : string) :
  (forall lb', _paused lb' = true -> write B lb' = (false, lb', [])) /\
  run [Write A; Pause; Write B; Resume; Write C] lb =
  run [Write A; Pause; Resume; Write C] lb.
Proof.
  split; [intros lb'; apply write_paused|].
  cbn [run step]. destruct (write A lb) as [[r lb1] evs1].
  unfold pause. rewrite write_paused by (destruct lb1; reflexivity).
  cbn. destruct (resume (set_paused true lb1)) as [lb0 evs0].
  destruct (write C lb0) as [[r' lb'] evs']. reflexivity.
Qed.

Lemma paused_write_is_dropped_witness :
  _paused (pause (new no_options)).1 = true /\
  write "dropped" (pause (new no_options)).1
    = (false, (pause (new no_options)).1, []) /\
  (run [Write ("a" +:+ NL +:+ "x"); Pause; Write ("B" +:+ NL); Resume;
        Write ("c" +:+ NL)] (new no_options)).2 = [Line "a"; Line "xxc"].
Proof.
  split; [reflexivity|]. split.
  - apply (proj1 (paused_write_is_dropped (new no_options) "" "dropped" "")).
    reflexivity.
  - rewrite (proj2 (paused_write_is_dropped (new no_options)
                      ("a" +:+ NL +:+ "x") ("B" +:+ NL) ("c" +:+ NL))).
    reflexivity.
Defined.

(** C10: on a corked buffer with a non-empty queue, [end] raises the
    completion signal, leaves the queue as it is, and emits as lines only
    the pending text, if there is any. *)
Theorem end_leaves_queue (lb : t) (cb : bool) :
  corked lb = true -> queue lb <> [] ->
  queue (end_ cb lb).1 = queue lb /\
  queue (end_ cb lb).1 <> [] /\
  corked (end_ cb lb).1 = true /\
  In Done (end_ cb lb).2 /\
  lines_of (end_ cb lb).2 = (if String.eqb (buffer lb) "" then [] else [buffer lb]) /\
  buffer (end_ cb lb).1 = "".
Proof.
  intros Hc Hq. unfold end_.
  destruct (String.eqb_spec (buffer lb) "") as [E|E]; cbn.
  - repeat split; try assumption.
    + apply in_eq.
    + destruct cb; reflexivity.
  - repeat split; try (destruct lb; assumption).
    + right. apply in_eq.
    + destruct cb; reflexivity.
Qed.

Lemma end_leaves_queue_witness :
  corked corked_with_line = true /\
  queue corked_with_line <> [] /\
  queue (end_ false (set_buffer "tail" corked_with_line)).1 = ["a"] /\
  (end_ false (set_buffer "tail" corked_with_line)).2 = [Line "tail"; Done].
Proof.
  split; [reflexivity|]. split; [discriminate|].
  assert (Hq : queue (set_buffer "tail" corked_with_line) <> []) by discriminate.
  pose proof (end_leaves_queue (set_buffer "tail" corked_with_line) false
                eq_refl Hq) as [H1 _].
  split; [exact H1 | reflexivity].
Defined.

End LineBufferTheorems.

(** ** The value mapper, the file reader and the batches *)

Module CSVTheorems.
Import JsNumber CSV.

Section Mapper.

Variable dayjs : string -> string -> option Z.

(** The numeric branch is taken exactly by the non-empty texts whose
    number is neither [NaN] nor positive infinity. *)
Lemma numeric_branch (formats : list string) (datum : string) (n : number) :
  defaultMap dayjs formats datum = SNumber n <->
  datum <> "" /\ Number datum = n /\ n <> NaN /\ n <> Infinity false.
Proof.
  unfold defaultMap.
  destruct (String.eqb_spec datum "") as [E|E].
  - split; [discriminate|tauto].
  - destruct (Number datum) as [|[|]|neg m e] eqn:En; cbn.
    + split; [|intros (_ & <- & H & _); congruence].
      destruct (fold_left _ _ _); [discriminate|].
      unfold SpecialValues. destruct (assoc datum _) eqn:Ea.
      * intros ->. exfalso. revert Ea. cbn.
        repeat (destruct (String.eqb datum _); [discriminate|]). discriminate.
      * destruct (existsb _ _); discriminate.
    + split; [intros [= <-]; repeat split; [assumption|discriminate..]|].
      intros (_ & <- & _). reflexivity.
    + split; [|intros (_ & <- & _ & H); congruence].
      destruct (fold_left _ _ _); [discriminate|].
      unfold SpecialValues. destruct (assoc datum _) eqn:Ea.
      * intros ->. exfalso. revert Ea. cbn.
        repeat (destruct (String.eqb datum _); [discriminate|]). discriminate.
      * destruct (existsb _ _); discriminate.
    + split; [intros [= <-]; repeat split; [assumption|discriminate..]|].
      intros (_ & <- & _). reflexivity.
Qed.

(** C5, at the text [-Infinity]: its number is negative infinity, which
    passes the test [datumNumber !== Infinity], so the mapper returns it
    as a number instead of going on to the later branches; so does a
    negative decimal too large for a finite number. Positive infinity and
    a number followed by other characters do go on. *)
Theorem negative_infinity_is_mapped_to_a_number (formats : list string) :
  Number "-Infinity" = Infinity true /\
  defaultMap dayjs formats "-Infinity" = SNumber (Infinity true) /\
  defaultMap dayjs formats "-1e999" = SNumber (Infinity true) /\
  (forall n, defaultMap dayjs formats "Infinity" <> SNumber n) /\
  (forall n, defaultMap dayjs formats "12abc" <> SNumber n).
Proof.
  split; [reflexivity|]. split; [reflexivity|]. split; [reflexivity|].
  split; intros n H; apply numeric_branch in H as (_ & Hn & H1 & H2);
    vm_compute in Hn; congruence.
Qed.

(** C6: the default mapper on the eight example texts, given what dayjs
    answers on them: it reads [2024-01-15] as the instant [time] in the
    format [YYYY-MM-DD] and in none of the three formats tried before,
    and it reads no date in the four texts that are not dates. *)
Theorem defaultMap_examples (time : Z) :
  (forall format, In format default_dateFormats ->
     forall datum, In datum ["true"; "#DIV/0!"; "hello"; "12abc"] ->
     dayjs datum format = None) ->
  dayjs "2024-01-15" "YYYY-MM-DD[T]HH:mm:ssZ" = None ->
  dayjs "2024-01-15" "YYYY-MM-DD[T]HH:mm:ss" = None ->
  dayjs "2024-01-15" "MM-DD-YYYY" = None ->
  dayjs "2024-01-15" "YYYY-MM-DD" = Some time ->
  map (defaultMap dayjs default_dateFormats)
      [""; "42"; "3.14"; "2024-01-15"; "true"; "#DIV/0!"; "hello"; "12abc"] =
  [SNull; SNumber (Finite false 42 0); SNumber (Finite false 314 (-2));
   SDate time; SBoolean true; SError "#DIV/0!"; SString "hello";
   SString "12abc"].
Proof.
  intros Hnone H1 H2 H3 H4.
  assert (Hfold : forall datum,
            In datum ["true"; "#DIV/0!"; "hello"; "12abc"] ->
            fold_left (first_valid dayjs datum) default_dateFormats None = None).
  { intros datum Hd.
    assert (Hn : forall f, In f default_dateFormats -> dayjs datum f = None)
      by (intros f Hf; apply Hnone; assumption).
    unfold default_dateFormats in *. cbn [fold_left]. unfold first_valid.
    rewrite !Hn by (cbn; tauto). reflexivity. }
  cbn [map]. repeat (f_equal; try reflexivity).
  - unfold defaultMap. cbn. rewrite H1. cbn. rewrite H2. cbn.
    rewrite H3. cbn. rewrite H4. reflexivity.
  - unfold defaultMap. rewrite Hfold by (cbn; tauto). reflexivity.
  - unfold defaultMap. rewrite Hfold by (cbn; tauto). reflexivity.
  - unfold defaultMap. rewrite Hfold by (cbn; tauto). reflexivity.
  - unfold defaultMap. rewrite Hfold by (cbn; tauto). reflexivity.
Qed.

End Mapper.

Lemma defaultMap_examples_witness :
  StrictDate.parse "2024-01-15" "YYYY-MM-DD"
    = Some (StrictDate.days_from_civil 2024 1 15 * 86400000) /\
  map (defaultMap StrictDate.parse default_dateFormats)
      [""; "42"; "3.14"; "2024-01-15"; "true"; "#DIV/0!"; "hello"; "12abc"] =
  [SNull; SNumber (Finite false 42 0); SNumber (Finite false 314 (-2));
   SDate 1705276800000; SBoolean true; SError "#DIV/0!"; SString "hello";
   SString "12abc"].
Proof.
  split; [reflexivity|].
  apply (defaultMap_examples StrictDate.parse 1705276800000);
    try reflexivity.
  intros format Hf datum Hd. cbn in Hf, Hd.
  repeat (destruct Hf as [<-|Hf]); try contradiction;
    repeat (destruct Hd as [<-|Hd]); try contradiction; reflexivity.
Defined.

(** *** [readFile] *)

Section ReadFile.

Variable dayjs : string -> string -> option Z.
Variable exists_ : string -> bool.
Variable parsed : string -> list parser_event.

Lemma readFile_not_found (filename : string) (options : read_options) :
  exists_ filename = false ->
  readFile dayjs exists_ parsed filename options =
  (Rejected (FileNotFound filename), []).
Proof. intros H. unfold readFile. rewrite H. reflexivity. Qed.

Lemma readFile_resolved (filename : string) (options : read_options)
  (worksheets : gmap (option string) (list Row)) :
  exists_ filename = true ->
  read dayjs (parsed filename) options = Resolved worksheets ->
  readFile dayjs exists_ parsed filename options =
  (Resolved worksheets, [CreateReadStream filename; Close filename]).
Proof. intros H Hr. unfold readFile. rewrite H, Hr. reflexivity. Qed.

Lemma readFile_rejected (filename : string) (options : read_options)
  (reason : error) :
  exists_ filename = true ->
  read dayjs (parsed filename) options = Rejected reason ->
  readFile dayjs exists_ parsed filename options =
  (Rejected reason, [CreateReadStream filename]).
Proof. intros H Hr. unfold readFile. rewrite H, Hr. reflexivity. Qed.

(** A read rejects exactly when the parser reports an error before the
    end of the stream. *)
Lemma read_events_error (mapper : string -> Scalar) (sheet : option string)
  (records : list (list string)) (message : string)
  (rest : list parser_event)
  (worksheets : gmap (option string) (list Row)) :
  read_events mapper sheet (map Data records ++ ParseError message :: rest)
    worksheets = Rejected (StreamError message).
Proof.
  revert worksheets. induction records as [|r rs IH]; intros worksheets.
  - reflexivity.
  - cbn [map app read_events]. apply IH.
Qed.

Lemma read_events_end (mapper : string -> Scalar) (sheet : option string)
  (records : list (list string)) (rest : list parser_event)
  (worksheets : gmap (option string) (list Row)) :
  exists table,
    read_events mapper sheet (map Data records ++ EndOfStream :: rest)
      worksheets = Resolved table.
Proof.
  revert worksheets. induction records as [|r rs IH]; intros worksheets.
  - eexists. reflexivity.
  - cbn [map app read_events]. apply IH.
Qed.

End ReadFile.

(** C7, on a file that exists and whose parsing fails after one record:
    [readFile] rejects with the parser's error and the read stream it has
    opened is never closed. On a missing file nothing is opened, and when
    the read resolves the stream is closed. *)
Theorem readFile_failed_read_leaves_stream_open
  (dayjs : string -> string -> option Z) (options : read_options) :
  readFile dayjs (fun _ => true)
           (fun _ => [Data ["1"; "x"]; ParseError "bad row"])
           "in.csv" options
  = (Rejected (StreamError "bad row"), [CreateReadStream "in.csv"]) /\
  (readFile dayjs (fun _ => true) (fun _ => [Data ["1"; "x"]; EndOfStream])
            "in.csv" options).2
  = [CreateReadStream "in.csv"; Close "in.csv"] /\
  readFile dayjs (fun _ => false) (fun _ => [Data ["1"; "x"]; EndOfStream])
           "in.csv" options
  = (Rejected (FileNotFound "in.csv"), []).
Proof.
  split; [|split].
  - apply readFile_rejected; [reflexivity|].
    apply (read_events_error _ _ [["1"; "x"]] "bad row" []).
  - destruct (read_events_end
                (default (defaultMap dayjs
                            (default default_dateFormats (dateFormats options)))
                         (map_ options))
                (sheetName options) [["1"; "x"]] [] ∅) as [table Ht].
    rewrite (readFile_resolved dayjs _ _ "in.csv" options table eq_refl Ht).
    reflexivity.
  - apply readFile_not_found. reflexivity.
Qed.

(** *** [streamFile] *)

Lemma stream_events_batches (records rows : list (list string))
  (batches : list (list (list string))) :
  (length rows < 1000)%nat ->
  exists (q r : nat) (bs : list (list (list string))),
    stream_events (map Data records ++ [EndOfStream]) rows batches
      = (Resolved tt, batches ++ bs) /\
    (length rows + length records = 1000 * q + r)%nat /\
    (r < 1000)%nat /\
    map length bs = repeat 1000%nat q ++ (if (r =? 0)%nat then [] else [r]) /\
    concat bs = rows ++ records /\
    Forall (fun b => b <> []) bs.
Proof.
  revert rows batches. induction records as [|x xs IH]; intros rows batches Hlt.
  - cbn [map app stream_events length].
    exists 0%nat, (length rows).
    destruct rows as [|y ys].
    + exists []. cbn. rewrite app_nil_r. repeat split; auto; lia.
    + exists [y :: ys]. cbn [Nat.ltb Nat.leb length].
      repeat split; try lia; cbn; rewrite ?app_nil_r; auto.
  - cbn [map app stream_events].
    destruct (Nat.leb_spec 1000 (length (rows ++ [x]))) as [Hge|Hlt'].
    + rewrite length_app in Hge. cbn in Hge.
      destruct (IH [] (batches ++ [rows ++ [x]])) as
        (q & r & bs & Hs & Hlen & Hr & Hm & Hc & Hf); [cbn; lia|].
      exists (S q), r, ((rows ++ [x]) :: bs).
      rewrite Hs, <- app_assoc. cbn [length] in *.
      repeat split; try lia.
      * cbn [map repeat app]. rewrite Hm, length_app. cbn [length].
        f_equal. lia.
      * cbn [concat]. rewrite Hc, <- app_assoc. reflexivity.
      * constructor; [|exact Hf]. destruct rows; discriminate.
    + rewrite length_app in Hlt'. cbn in Hlt'.
      destruct (IH (rows ++ [x]) batches) as
        (q & r & bs & Hs & Hlen & Hr & Hm & Hc & Hf);
        [rewrite length_app; cbn; lia|].
      exists q, r, bs. rewrite Hs.
      rewrite length_app in Hlen. cbn [length] in *.
      repeat split; try lia; try assumption.
      rewrite Hc, <- app_assoc. reflexivity.
Qed.

(** C8: when the parser gives 2500 rows and then ends, the sink is called
    three times, with 1000, 1000 and 500 rows; and whatever the number of
    rows, the sink gets the rows in order in batches of 1000, followed by
    one batch with the remaining rows when there are some, and never an
    empty batch. *)
Theorem streamFile_batches (parsed : string -> list parser_event)
  (filename : string) (records : list (list string)) :
  parsed filename = map Data records ++ [EndOfStream] ->
  let calls := (streamFile parsed filename).2 in
  (length records = 2500%nat -> map length calls = [1000; 1000; 500]%nat) /\
  Forall (fun batch => batch <> []) calls /\
  concat calls = records /\
  map length calls =
    repeat 1000%nat (length records / 1000)
    ++ (if (length records mod 1000 =? 0)%nat then []
        else [(length records mod 1000)%nat]).
Proof.
  intros Hp calls. subst calls. unfold streamFile. rewrite Hp.
  destruct (stream_events_batches records [] []) as
    (q & r & bs & Hs & Hlen & Hr & Hm & Hc & Hf); [cbn; lia|].
  rewrite Hs. cbn [snd app length] in *.
  assert (Hlen' : (length records = 1000 * q + r)%nat) by lia.
  clear Hlen.
  assert (Hq : q = (length records / 1000)%nat).
  { rewrite Hlen'. symmetry. rewrite Nat.mul_comm.
    rewrite Nat.div_add_l by lia. rewrite Nat.div_small by lia. lia. }
  assert (Hr' : r = (length records mod 1000)%nat).
  { rewrite Hlen'. symmetry. rewrite Nat.add_comm, Nat.mul_comm.
    rewrite Nat.Div0.mod_add. apply Nat.mod_small. lia. }
  repeat split.
  - intros H2500. rewrite Hm.
    assert (q = 2%nat /\ r = 500%nat) as [-> ->] by lia. reflexivity.
  - exact Hf.
  - exact Hc.
  - rewrite Hm, Hq, Hr'. reflexivity.
Qed.

Lemma streamFile_batches_witness :
  (fun _ : string => map Data (repeat ["x"] 2500) ++ [EndOfStream]) "big.csv"
    = map Data (repeat ["x"] 2500) ++ [EndOfStream] /\
  length (repeat ["x"] 2500) = 2500%nat /\
  map length
    (streamFile (fun _ => map Data (repeat ["x"] 2500) ++ [EndOfStream])
                "big.csv").2 = [1000; 1000; 500]%nat.
Proof.
  split; [reflexivity|]. split; [apply repeat_length|].
  apply (proj1 (streamFile_batches
                  (fun _ => map Data (repeat ["x"] 2500) ++ [EndOfStream])
                  "big.csv" (repeat ["x"] 2500) eq_refl)).
  apply repeat_length.
Defined.

End CSVTheorems.

(** ** Invariants and compositions of the line buffer *)

Module LineBufferInvariants.
Import Split SplitFacts LineBuffer LineBufferFacts LineBufferAux Scenarios.

Lemma same_settings_refl (a : t) : same_settings a a.
Proof. repeat split. Qed.

Lemma same_settings_trans (a b c : t) :
  same_settings a b -> same_settings b c -> same_settings a c.
Proof.
  unfold same_settings. intros (?&?&?&?&?&?&?) (?&?&?&?&?&?&?).
  repeat split; congruence.
Qed.

Lemma _flush_frame (lb : t) :
  same_settings lb (_flush lb).1 /\
  buffer (_flush lb).1 = buffer lb /\
  lineCount (_flush lb).1 = lineCount lb.
Proof.
  unfold _flush. destruct (negb (corked lb) && _); destruct lb;
    repeat split.
Qed.

Lemma write_line_frame (lb : t) (evs : list event) (line : string) :
  same_settings lb (write_line (lb, evs) line).1 /\
  buffer (write_line (lb, evs) line).1 = buffer lb /\
  lineCount (write_line (lb, evs) line).1 =
    lineCount lb + (if corked lb then 0 else 1).
Proof.
  unfold write_line. destruct (corked lb) eqn:Hc.
  - destruct lb; cbn in *. subst. repeat split. cbn. lia.
  - set (lb1 := set_lineCount _ lb).
    assert (H1 : same_settings lb lb1 /\ buffer lb1 = buffer lb /\
                 lineCount lb1 = lineCount lb + 1)
      by (destruct lb; repeat split).
    destruct H1 as (Hs & Hb & Hn).
    destruct (threshold_reached lb1).
    + destruct (_flush_frame lb1) as (Hs' & Hb' & Hn').
      destruct (_flush lb1) as [lb2 fl]. cbn [fst] in *.
      split; [exact (same_settings_trans _ _ _ Hs Hs')|].
      split; congruence.
    + cbn [fst]. auto.
Qed.

Lemma fold_write_line_frame (lines : list string) (lb : t) (evs : list event) :
  same_settings lb (fold_left write_line lines (lb, evs)).1 /\
  buffer (fold_left write_line lines (lb, evs)).1 = buffer lb /\
  lineCount (fold_left write_line lines (lb, evs)).1 =
    lineCount lb + (if corked lb then 0 else Z.of_nat (length lines)).
Proof.
  revert lb evs. induction lines as [|l ls IH]; intros lb evs.
  - cbn. repeat split. destruct (corked lb); lia.
  - cbn [fold_left].
    destruct (write_line_frame lb evs l) as (Hs & Hb & Hn).
    destruct (write_line (lb, evs) l) as [lb1 evs1]. cbn [fst] in *.
    destruct (IH lb1 evs1) as (Hs' & Hb' & Hn').
    split; [exact (same_settings_trans _ _ _ Hs Hs')|].
    split; [congruence|].
    rewrite Hn', Hn. destruct Hs as (Hc & _). rewrite Hc.
    destruct (corked lb); cbn [length]; lia.
Qed.

(** What a write on a buffer that is not paused does to the state. *)
Lemma write_frame (chunk : string) (lb : t) :
  _paused lb = false ->
  let frags := split (lineDelimiter lb) (buffer lb +:+ chunk) in
  (write chunk lb).1.1 = negb (corked lb) /\
  same_settings lb (write chunk lb).1.2 /\
  buffer (write chunk lb).1.2 = List.last frags "" /\
  lineCount (write chunk lb).1.2 =
    lineCount lb
    + (if corked lb then 0 else Z.of_nat (length (removelast frags))).
Proof.
  intros Hp frags. unfold write. rewrite Hp. fold frags. unfold pop.
  set (lb0 := set_buffer (List.last frags "") lb).
  assert (H0 : same_settings lb lb0 /\ buffer lb0 = List.last frags "" /\
               lineCount lb0 = lineCount lb) by (destruct lb; repeat split).
  destruct H0 as (Hs0 & Hb0 & Hn0).
  destruct (fold_write_line_frame (removelast frags) lb0 []) as (Hs1 & Hb1 & Hn1).
  destruct (fold_left write_line (removelast frags) (lb0, [])) as [lb1 evs].
  cbn [fst] in *.
  assert (Hc1 : corked lb0 = corked lb) by apply Hs0.
  rewrite Hc1 in Hn1.
  pose proof (same_settings_trans _ _ _ Hs0 Hs1) as Hs01.
  destruct (_ >? _).
  - destruct (_flush_frame lb1) as (Hs2 & Hb2 & Hn2).
    destruct (_flush lb1) as [lb2 fl]. cbn [fst snd] in *.
    pose proof (same_settings_trans _ _ _ Hs01 Hs2) as Hs.
    split; [f_equal; apply Hs|]. split; [exact Hs|]. split; congruence.
  - cbn [fst snd]. split; [f_equal; apply Hs01|]. split; [exact Hs01|].
    split; congruence.
Qed.

Lemma uncorked_or_empty_flush (lb : t) :
  corked (_flush lb).1 = true \/ queue (_flush lb).1 = [].
Proof.
  unfold _flush. destruct (corked lb) eqn:Hc; cbn.
  - left. exact Hc.
  - right. destruct (0 <? _) eqn:Hq; cbn; [reflexivity|].
    destruct (queue lb); [reflexivity|]. cbn in Hq. discriminate.
Qed.

Lemma uncorked_or_empty_write (chunk : string) (lb : t) :
  corked lb = true \/ queue lb = [] ->
  corked (write chunk lb).1.2 = true \/ queue (write chunk lb).1.2 = [].
Proof.
  intros H. destruct (_paused lb) eqn:Hp.
  - rewrite write_paused by exact Hp. exact H.
  - destruct (corked lb) eqn:Hc.
    + left. destruct (write_frame chunk lb Hp) as (_ & Hs & _).
      destruct Hs as (Hc' & _). congruence.
    + destruct H as [H|Hq]; [discriminate|].
      right. destruct (write_open chunk lb Hp Hc Hq) as [evs [Hw _]].
      rewrite Hw. destruct lb; exact Hq.
Qed.

Lemma uncorked_or_empty_step (c : call) (lb : t) :
  corked lb = true \/ queue lb = [] ->
  corked (step c lb).1 = true \/ queue (step c lb).1 = [].
Proof.
  intros H. destruct c as [chunk| | |cb| |]; cbn [step].
  - pose proof (uncorked_or_empty_write chunk lb H) as Hw.
    destruct (write chunk lb) as [[r lb'] evs]. exact Hw.
  - left. destruct lb; reflexivity.
  - unfold uncork.
    pose proof (uncorked_or_empty_flush (set_corked false lb)) as Hf.
    destruct (_flush (set_corked false lb)). exact Hf.
  - unfold end_. destruct (String.eqb _ _); cbn; [exact H|].
    destruct lb; exact H.
  - destruct lb; exact H.
  - unfold resume.
    set (lb0 := set_paused false lb).
    destruct (String.eqb (buffer lb0) "").
    + pose proof (uncorked_or_empty_flush lb0) as Hf.
      destruct (_flush lb0). exact Hf.
    + destruct (write (buffer lb0) lb0) as [[r lb'] evs].
      pose proof (uncorked_or_empty_flush lb') as Hf.
      destruct (_flush lb'). exact Hf.
Qed.

Lemma uncorked_or_empty_run (cs : list call) (lb : t) :
  corked lb = true \/ queue lb = [] ->
  corked (run cs lb).1 = true \/ queue (run cs lb).1 = [].
Proof.
  revert lb. induction cs as [|c cs IH]; intros lb Hlb; [exact Hlb|].
  cbn [run]. pose proof (uncorked_or_empty_step c lb Hlb) as Hs.
  destruct (step c lb) as [lb1 evs1]. specialize (IH lb1 Hs).
  destruct (run cs lb1). exact IH.
Qed.

(** X1: in every state reached from a new buffer by calls of its methods,
    the queue is empty unless the buffer is corked; [getStats] never
    reports queued lines on an uncorked buffer. *)
Theorem queue_empty_unless_corked (o : options) (cs : list call) :
  let lb := (run cs (new o)).1 in
  (corked lb = true \/ queue lb = []) /\
  (let '(_, _, queuedLines, is_corked) := getStats lb in
   is_corked = true \/ queuedLines = 0).
Proof.
  intros lb. assert (Hlb : corked lb = true \/ queue lb = [])
    by (apply uncorked_or_empty_run; right; reflexivity).
  split; [exact Hlb|]. unfold getStats.
  destruct Hlb as [Hc|Hq]; [left; exact Hc|right; rewrite Hq; reflexivity].
Qed.

(** The frame of one call: the delimiter is never assigned, and the count
    of lines never decreases. *)
Lemma step_frame (c : call) (lb : t) :
  lineDelimiter (step c lb).1 = lineDelimiter lb /\
  transformFn (step c lb).1 = transformFn lb /\
  lineCount lb <= lineCount (step c lb).1.
Proof.
  assert (Hw : forall chunk x,
             lineDelimiter (write chunk x).1.2 = lineDelimiter x /\
             transformFn (write chunk x).1.2 = transformFn x /\
             lineCount x <= lineCount (write chunk x).1.2).
  { intros chunk x. destruct (_paused x) eqn:Hp.
    - rewrite write_paused by exact Hp. cbn. repeat split. lia.
    - destruct (write_frame chunk x Hp) as (_ & Hs & _ & Hn).
      destruct Hs as (_ & _ & Hd & Ht & _). rewrite Hn.
      repeat split; try assumption. destruct (corked x); lia. }
  destruct c as [chunk| | |cb| |]; cbn [step].
  - specialize (Hw chunk lb). destruct (write chunk lb) as [[r lb'] evs].
    exact Hw.
  - destruct lb; cbn; repeat split; lia.
  - unfold uncork.
    destruct (_flush_frame (set_corked false lb)) as (Hs & _ & Hn).
    destruct Hs as (_ & _ & Hd & Ht & _).
    destruct (_flush (set_corked false lb)). cbn [fst] in *.
    rewrite Hd, Ht, Hn. destruct lb; cbn; repeat split; lia.
  - unfold end_. destruct (String.eqb _ _); destruct lb; cbn;
      repeat split; lia.
  - destruct lb; cbn; repeat split; lia.
  - unfold resume. set (lb0 := set_paused false lb).
    assert (H0 : lineDelimiter lb0 = lineDelimiter lb /\
                 transformFn lb0 = transformFn lb /\
                 lineCount lb0 = lineCount lb)
      by (destruct lb; repeat split).
    destruct H0 as (Hd0 & Ht0 & Hn0).
    destruct (String.eqb (buffer lb0) "").
    + destruct (_flush_frame lb0) as (Hs & _ & Hn).
      destruct Hs as (_ & _ & Hd & Ht & _).
      destruct (_flush lb0). cbn [fst] in *.
      rewrite Hd, Ht, Hn, Hd0, Ht0, Hn0. repeat split; lia.
    + specialize (Hw (buffer lb0) lb0).
      destruct (write (buffer lb0) lb0) as [[r lb'] evs]. cbn [fst snd] in *.
      destruct Hw as (Hd1 & Ht1 & Hn1).
      destruct (_flush_frame lb') as (Hs & _ & Hn).
      destruct Hs as (_ & _ & Hd & Ht & _).
      destruct (_flush lb'). cbn [fst] in *.
      rewrite Hd, Ht, Hn, Hd1, Ht1, Hd0, Ht0. repeat split; lia.
Qed.

(** Each call keeps the pending text free of the default pattern. *)
Lemma pending_free_step (c : call) (lb : t) :
  lineDelimiter lb = CrLfPattern ->
  split_crlf (buffer lb) = [buffer lb] ->
  split_crlf (buffer (step c lb).1) = [buffer (step c lb).1].
Proof.
  intros Hd Hb.
  assert (Hw : forall chunk x,
             lineDelimiter x = CrLfPattern ->
             split_crlf (buffer x) = [buffer x] ->
             split_crlf (buffer (write chunk x).1.2)
             = [buffer (write chunk x).1.2]).
  { intros chunk x Hdx Hbx. destruct (_paused x) eqn:Hp.
    - rewrite write_paused by exact Hp. exact Hbx.
    - destruct (write_frame chunk x Hp) as (_ & _ & Hbuf & _).
      rewrite Hbuf, Hdx. apply split_crlf_last. }
  assert (Hf : forall x, split_crlf (buffer x) = [buffer x] ->
             split_crlf (buffer (_flush x).1) = [buffer (_flush x).1]).
  { intros x Hx. destruct (_flush_frame x) as (_ & Hbx & _).
    rewrite Hbx. exact Hx. }
  destruct c as [chunk| | |cb| |]; cbn [step].
  - specialize (Hw chunk lb Hd Hb).
    destruct (write chunk lb) as [[r lb'] evs]. exact Hw.
  - destruct lb; exact Hb.
  - unfold uncork. specialize (Hf (set_corked false lb)).
    destruct (_flush (set_corked false lb)). apply Hf. destruct lb; exact Hb.
  - unfold end_. destruct (String.eqb _ _); [exact Hb|].
    destruct lb; reflexivity.
  - destruct lb; exact Hb.
  - unfold resume. set (lb0 := set_paused false lb).
    assert (Hd0 : lineDelimiter lb0 = CrLfPattern) by (destruct lb; exact Hd).
    assert (Hb0 : split_crlf (buffer lb0) = [buffer lb0])
      by (destruct lb; exact Hb).
    destruct (String.eqb (buffer lb0) "").
    + specialize (Hf lb0 Hb0). destruct (_flush lb0). exact Hf.
    + specialize (Hw (buffer lb0) lb0 Hd0 Hb0).
      destruct (write (buffer lb0) lb0) as [[r lb'] evs]. cbn [fst snd] in *.
      specialize (Hf lb' Hw). destruct (_flush lb'). exact Hf.
Qed.

(** X2: with the default pattern, in every state reached from a new buffer
    the pending text contains no occurrence of the pattern: it never holds
    a complete line. *)
Theorem pending_never_holds_a_line (o : options) (cs : list call) :
  opt_lineDelimiter o = None ->
  delimiter_count (buffer (run cs (new o)).1) = 0%nat /\
  split_crlf (buffer (run cs (new o)).1) = [buffer (run cs (new o)).1].
Proof.
  intros Ho.
  assert (H : forall cs lb, lineDelimiter lb = CrLfPattern ->
              split_crlf (buffer lb) = [buffer lb] ->
              split_crlf (buffer (run cs lb).1) = [buffer (run cs lb).1]).
  { clear cs. induction cs as [|c cs IH]; intros lb Hd Hb; [exact Hb|].
    cbn [run]. pose proof (pending_free_step c lb Hd Hb) as Hs.
    destruct (step_frame c lb) as (Hd' & _).
    destruct (step c lb) as [lb1 evs1]. cbn [fst] in *.
    specialize (IH lb1). destruct (run cs lb1). apply IH; congruence. }
  assert (Hfree : split_crlf (buffer (run cs (new o)).1)
                  = [buffer (run cs (new o)).1]).
  { apply H; [|reflexivity]. unfold new. cbn. rewrite Ho. reflexivity. }
  split; [apply crlf_free_iff|]; exact Hfree.
Qed.

Lemma pending_never_holds_a_line_witness :
  opt_lineDelimiter no_options = None /\
  buffer (run [Write ("a" +:+ NL +:+ "b"); Cork; Write ("c" +:+ NL +:+ "d");
               Pause; Resume; Uncork] (new no_options)).1 = "dd" /\
  delimiter_count
    (buffer (run [Write ("a" +:+ NL +:+ "b"); Cork; Write ("c" +:+ NL +:+ "d");
                  Pause; Resume; Uncork] (new no_options)).1) = 0%nat.
Proof.
  split; [reflexivity|]. split; [reflexivity|].
  apply (pending_never_holds_a_line no_options
           [Write ("a" +:+ NL +:+ "b"); Cork; Write ("c" +:+ NL +:+ "d");
            Pause; Resume; Uncork] eq_refl).
Defined.

(** X3: [lineCount] never decreases, whatever the state and the calls,
    and [cork], [uncork], [end] and [pause] leave it as it is. *)
Theorem lineCount_never_decreases (lb : t) (cs : list call) (cb : bool) :
  lineCount lb <= lineCount (run cs lb).1 /\
  lineCount (cork lb).1 = lineCount lb /\
  lineCount (uncork lb).1 = lineCount lb /\
  lineCount (end_ cb lb).1 = lineCount lb /\
  lineCount (pause lb).1 = lineCount lb.
Proof.
  split.
  - revert lb. induction cs as [|c cs IH]; intros lb; [cbn; lia|].
    cbn [run]. destruct (step_frame c lb) as (_ & _ & Hn).
    destruct (step c lb) as [lb1 evs1]. cbn [fst] in *.
    specialize (IH lb1). destruct (run cs lb1). cbn [fst] in *. lia.
  - split; [destruct lb; reflexivity|]. split.
    + unfold uncork.
      destruct (_flush_frame (set_corked false lb)) as (_ & _ & Hn).
      destruct (_flush (set_corked false lb)). cbn [fst] in *.
      rewrite Hn. destruct lb; reflexivity.
    + split; [|destruct lb; reflexivity].
      unfold end_. destruct (String.eqb _ _); destruct lb; reflexivity.
Qed.

(** X4: [write] returns [true] exactly when the buffer is neither paused
    nor corked; it never changes the flags or the settings, and it adds to
    [lineCount] the number of complete lines of the pending text and the
    chunk when the buffer is neither paused nor corked, and nothing
    otherwise. *)
Theorem write_result (chunk : string) (lb : t) :
  (write chunk lb).1.1 = negb (_paused lb) && negb (corked lb) /\
  same_settings lb (write chunk lb).1.2 /\
  lineCount (write chunk lb).1.2 =
    lineCount lb
    + (if _paused lb || corked lb then 0
       else Z.of_nat (length (removelast
              (split (lineDelimiter lb) (buffer lb +:+ chunk))))).
Proof.
  destruct (_paused lb) eqn:Hp.
  - rewrite write_paused by exact Hp. cbn.
    split; [reflexivity|]. split; [apply same_settings_refl|lia].
  - destruct (write_frame chunk lb Hp) as (Hr & Hs & _ & Hn).
    cbn [negb andb orb]. auto.
Qed.

(** The pending text after a sequence of writes on a buffer that is not
    paused is the last fragment of the whole text. *)
Lemma run_writes_buffer (chunks : list string) (lb : t) :
  _paused lb = false -> lineDelimiter lb = CrLfPattern ->
  split_crlf (buffer lb) = [buffer lb] ->
  buffer (run (map Write chunks) lb).1 =
  List.last (split_crlf (buffer lb +:+ concat_chunks chunks)) "".
Proof.
  revert lb. induction chunks as [|c cs IH]; intros lb Hp Hd Hb.
  - cbn. rewrite append_empty_r, Hb. reflexivity.
  - cbn [map run step concat_chunks].
    destruct (write_frame c lb Hp) as (_ & Hs & Hbuf & _).
    destruct Hs as (_ & Hp' & Hd' & _).
    destruct (write c lb) as [[r lb1] evs1]. cbn [fst snd] in *.
    specialize (IH lb1). destruct (run (map Write cs) lb1) as [lb2 evs2].
    cbn [fst] in *. rewrite Hd in Hbuf. cbn [split] in Hbuf.
    rewrite IH; try congruence; [|rewrite Hbuf; apply split_crlf_last].
    rewrite Hbuf, <- append_assoc, (split_crlf_app (buffer lb +:+ c)).
    rewrite last_default_app by apply split_crlf_nonempty. reflexivity.
Qed.

(** X5: with the default pattern, writing a text in any chunks to a new
    buffer and ending it emits the complete lines of the text, transformed,
    and then the text after the last delimiter, as it is, if it is not
    empty; ending a second time emits no further line. *)
Theorem write_then_end_emits_all (o : options) (chunks : list string)
  (cb cb' : bool) :
  opt_lineDelimiter o = None ->
  let frags := split_crlf (concat_chunks chunks) in
  lines_of (run (map Write chunks ++ [End cb]) (new o)).2 =
    map (transformed (new o)) (removelast frags) ++ final_line frags /\
  lines_of (run (map Write chunks ++ [End cb; End cb']) (new o)).2 =
    map (transformed (new o)) (removelast frags) ++ final_line frags.
Proof.
  intros Ho frags.
  assert (Hd : lineDelimiter (new o) = CrLfPattern).
  { unfold new. cbn. rewrite Ho. reflexivity. }
  pose proof (run_writes_open chunks (new o) eq_refl eq_refl eq_refl Hd eq_refl)
    as Hl.
  pose proof (run_writes_buffer chunks (new o) eq_refl Hd eq_refl) as Hb.
  change (buffer (new o) +:+ concat_chunks chunks)
    with (concat_chunks chunks) in Hl, Hb. fold frags in Hl, Hb.
  rewrite !run_app.
  destruct (run (map Write chunks) (new o)) as [lb1 evs1]. cbn [fst snd] in *.
  unfold final_line. cbn [run step]. unfold end_. rewrite Hb.
  destruct (String.eqb_spec (List.last frags "") "") as [E|E].
  - split.
    + cbn. rewrite lines_of_app, Hl.
      destruct cb; cbn; reflexivity.
    + cbn. rewrite Hb, E. cbn. rewrite lines_of_app, Hl.
      destruct cb, cb'; reflexivity.
  - split.
    + cbn. rewrite lines_of_app, Hl. destruct cb; reflexivity.
    + replace (buffer (set_buffer "" lb1)) with "" by (destruct lb1; reflexivity).
      cbn. rewrite lines_of_app, Hl. destruct cb, cb'; reflexivity.
Qed.

Lemma write_then_end_emits_all_witness :
  opt_lineDelimiter no_options = None /\
  lines_of (run (map Write ["a" +:+ NL +:+ "b"; "c"] ++ [End false])
                (new no_options)).2 = ["a"; "bc"] /\
  lines_of (run (map Write ["a" +:+ NL; "bc" +:+ NL] ++ [End false; End true])
                (new no_options)).2 = ["a"; "bc"].
Proof.
  split; [reflexivity|]. split.
  - rewrite (proj1 (write_then_end_emits_all no_options
                      ["a" +:+ NL +:+ "b"; "c"] false false eq_refl)).
    reflexivity.
  - rewrite (proj2 (write_then_end_emits_all no_options
                      ["a" +:+ NL; "bc" +:+ NL] false true eq_refl)).
    reflexivity.
Defined.

Lemma join_lf_cons_head (c : ascii) (l : list string) :
  l <> [] -> join_lf (cons_head c l) = String c (join_lf l).
Proof. destruct l as [|h [|h' t]]; [congruence| |]; reflexivity. Qed.

(** Joining the fragments of a text with line feeds gives the text back,
    when no carriage return was dropped with a line feed. *)
Lemma join_split_crlf (s : string) :
  has_crlf s = false -> join_lf (split_crlf s) = s.
Proof.
  induction s as [| s IH | s IH | c s Hc Hn IH] using crlf_ind; intros H.
  - reflexivity.
  - rewrite split_crlf_LF. pose proof (split_crlf_nonempty s) as Hne.
    change (has_crlf (String LF s)) with (has_crlf s) in H.
    specialize (IH H). destruct (split_crlf s) as [|h t]; [congruence|].
    change (join_lf ("" :: h :: t)) with (String LF (join_lf (h :: t))).
    rewrite IH. reflexivity.
  - discriminate H.
  - rewrite split_crlf_other by assumption.
    rewrite join_lf_cons_head by apply split_crlf_nonempty.
    f_equal. apply IH. cbn [has_crlf] in H.
    apply orb_false_iff in H. tauto.
Qed.

(** X6: on a new default buffer, if the text written contains no carriage
    return directly before a line feed, then the lines emitted followed by
    the pending text, joined with line feeds, are the text written: no
    character is lost, added or moved by [write]. *)
Theorem writes_lose_nothing (chunks : list string) :
  has_crlf (concat_chunks chunks) = false ->
  let r := run (map Write chunks) (new no_options) in
  join_lf (lines_of r.2 ++ [buffer r.1]) = concat_chunks chunks.
Proof.
  intros H r. subst r.
  rewrite (run_writes_open chunks (new no_options)) by reflexivity.
  rewrite (run_writes_buffer chunks (new no_options)) by reflexivity.
  change (buffer (new no_options) +:+ concat_chunks chunks)
    with (concat_chunks chunks).
  rewrite (map_ext _ id) by reflexivity. rewrite map_id.
  rewrite <- app_removelast_last by apply split_crlf_nonempty.
  apply join_split_crlf, H.
Qed.

Lemma writes_lose_nothing_witness :
  has_crlf (concat_chunks ["a" +:+ NL +:+ NL +:+ "b"; "c" +:+ NL +:+ "d"])
    = false /\
  join_lf
    (lines_of (run (map Write ["a" +:+ NL +:+ NL +:+ "b"; "c" +:+ NL +:+ "d"])
                   (new no_options)).2
     ++ [buffer (run (map Write ["a" +:+ NL +:+ NL +:+ "b"; "c" +:+ NL +:+ "d"])
                     (new no_options)).1])
  = concat_chunks ["a" +:+ NL +:+ NL +:+ "b"; "c" +:+ NL +:+ "d"].
Proof.
  split; [reflexivity|].
  apply (writes_lose_nothing
           ["a" +:+ NL +:+ NL +:+ "b"; "c" +:+ NL +:+ "d"] eq_refl).
Defined.



Lemma progress_of_app (xs ys : list event) :
  progress_of (xs ++ ys) = progress_of xs ++ progress_of ys.
Proof. apply omap_app. Qed.

Lemma map_seq_shift (f : nat -> Z) (a s n : nat) :
  map f (seq (a + s) n) = map (fun i => f (a + i)%nat) (seq s n).
Proof.
  revert s. induction n as [|n IH]; intros s; [reflexivity|].
  cbn [seq map]. f_equal. rewrite <- IH. f_equal. f_equal. lia.
Qed.

(** Uncorked with an empty queue, [forEach] calls the progress callback,
    if there is one, once per line, with the counts that follow
    [lineCount]. *)
Lemma fold_write_line_progress (lines : list string) (lb : t)
  (evs : list event) :
  corked lb = false -> queue lb = [] ->
  progress_of (fold_left write_line lines (lb, evs)).2 =
  progress_of evs ++
  (if progressCallback lb
   then map (fun i => lineCount lb + Z.of_nat i) (seq 1 (length lines))
   else []).
Proof.
  revert lb evs. induction lines as [|l ls IH]; intros lb evs Hc Hq.
  - cbn. destruct (progressCallback lb); rewrite app_nil_r; reflexivity.
  - cbn [fold_left write_line]. rewrite Hc.
    set (lb1 := set_lineCount (lineCount lb + 1) lb).
    set (evs1 := evs ++ _).
    assert (Hstep : (if threshold_reached lb1
                     then let '(lb2, fl) := _flush lb1 in (lb2, evs1 ++ fl)
                     else (lb1, evs1)) = (lb1, evs1)).
    { destruct (threshold_reached lb1); [|reflexivity].
      rewrite _flush_empty by (destruct lb; exact Hq).
      rewrite app_nil_r. reflexivity. }
    rewrite Hstep, IH by (destruct lb; assumption).
    subst evs1. rewrite progress_of_app, <- app_assoc. f_equal.
    replace (progressCallback lb1) with (progressCallback lb)
      by (destruct lb; reflexivity).
    replace (lineCount lb1) with (lineCount lb + 1)
      by (destruct lb; reflexivity).
    destruct (progressCallback lb); [|reflexivity].
    change (progress_of [Line (transformed lb l); Progress (lineCount lb + 1)])
      with [lineCount lb + 1].
    cbn [length seq map app]. f_equal.
    rewrite (map_seq_shift _ 1 1). apply map_ext. intros i. lia.
Qed.

(** The count and the progress calls of a sequence of writes on an open
    buffer with the default pattern. *)
Lemma run_writes_progress (chunks : list string) (lb : t) :
  _paused lb = false -> corked lb = false -> queue lb = [] ->
  lineDelimiter lb = CrLfPattern ->
  split_crlf (buffer lb) = [buffer lb] ->
  let k := length (removelast
                     (split_crlf (buffer lb +:+ concat_chunks chunks))) in
  lineCount (run (map Write chunks) lb).1 = lineCount lb + Z.of_nat k /\
  progress_of (run (map Write chunks) lb).2 =
    (if progressCallback lb
     then map (fun i => lineCount lb + Z.of_nat i) (seq 1 k) else []).
Proof.
  revert lb. induction chunks as [|c cs IH]; intros lb Hp Hc Hq Hd Hb k.
  - subst k. cbn. rewrite append_empty_r, Hb. cbn.
    split; [lia|]. destruct (progressCallback lb); reflexivity.
  - subst k. cbn [map run step concat_chunks].
    destruct (write_open c lb Hp Hc Hq) as [evs [Hw _]].
    assert (Hpe : progress_of (write c lb).2 =
                  if progressCallback lb
                  then map (fun i => lineCount lb + Z.of_nat i)
                         (seq 1 (length (removelast
                                   (split_crlf (buffer lb +:+ c)))))
                  else []).
    { unfold write. rewrite Hp, Hd. cbn [split]. unfold pop.
      set (lb0 := set_buffer _ lb).
      assert (Hc0 : corked lb0 = false) by (destruct lb; exact Hc).
      assert (Hq0 : queue lb0 = []) by (destruct lb; exact Hq).
      pose proof (fold_write_line_progress
                    (removelast (split_crlf (buffer lb +:+ c))) lb0 [] Hc0 Hq0)
        as Hprog.
      destruct (fold_write_line_open
                  (removelast (split_crlf (buffer lb +:+ c))) lb0 [] Hc0 Hq0)
        as [e' [Ho _]].
      rewrite Ho in Hprog |- *. cbn [snd] in Hprog.
      set (lb1 := set_lineCount _ lb0) in *.
      rewrite (_flush_empty lb1) by (destruct lb; exact Hq).
      destruct (_ >? _); cbn [snd]; rewrite app_nil_r, Hprog;
        destruct lb; reflexivity. }
    rewrite Hd in Hw. cbn [split] in Hw. rewrite Hw in Hpe |- *.
    cbn [snd] in Hpe.
    set (f1 := split_crlf (buffer lb +:+ c)) in *.
    set (lb1 := set_lineCount _ _).
    destruct (IH lb1) as (Hn & Hpr);
      try (destruct lb; assumption);
      [subst lb1 f1; destruct lb; apply split_crlf_last|].
    destruct (run (map Write cs) lb1) as [lb2 evs2]. cbn [fst snd] in *.
    replace (buffer lb1) with (List.last f1 "") in Hn, Hpr
      by (destruct lb; reflexivity).
    replace (lineCount lb1)
      with (lineCount lb + Z.of_nat (length (removelast f1))) in Hn, Hpr
      by (destruct lb; reflexivity).
    replace (progressCallback lb1) with (progressCallback lb) in Hpr
      by (destruct lb; reflexivity).
    rewrite <- append_assoc, (split_crlf_app (buffer lb +:+ c)). fold f1.
    rewrite removelast_app by apply split_crlf_nonempty.
    rewrite length_app. split; [rewrite Hn; lia|].
    rewrite progress_of_app, Hpe, Hpr.
    destruct (progressCallback lb); [|reflexivity].
    rewrite seq_app, map_app. f_equal.
    rewrite (Nat.add_comm 1 (length (removelast f1))).
    rewrite (map_seq_shift _ (length (removelast f1)) 1).
    apply map_ext. intros i. lia.
Qed.

(** X8: with the default pattern, after any sequence of writes on a new
    buffer [lineCount] is the number of delimiters in the text written,
    and the progress callback, if there is one, has been called once per
    line with 1, 2, ... up to that number, in order. *)
Theorem lineCount_and_progress (o : options) (chunks : list string) :
  opt_lineDelimiter o = None ->
  let k := delimiter_count (concat_chunks chunks) in
  lineCount (run (map Write chunks) (new o)).1 = Z.of_nat k /\
  progress_of (run (map Write chunks) (new o)).2 =
    (if opt_progressCallback o then map Z.of_nat (seq 1 k) else []).
Proof.
  intros Ho k.
  assert (Hd : lineDelimiter (new o) = CrLfPattern).
  { unfold new. cbn. rewrite Ho. reflexivity. }
  destruct (run_writes_progress chunks (new o) eq_refl eq_refl eq_refl Hd
              eq_refl) as (Hn & Hp).
  change (buffer (new o) +:+ concat_chunks chunks)
    with (concat_chunks chunks) in Hn, Hp.
  rewrite complete_lines_count in Hn, Hp. fold k in Hn, Hp.
  split; [rewrite Hn; cbn; lia|].
  rewrite Hp. change (progressCallback (new o)) with (opt_progressCallback o).
  destruct (opt_progressCallback o); [|reflexivity].
  apply map_ext. intros i. cbn. lia.
Qed.

Lemma lineCount_and_progress_witness :
  opt_lineDelimiter (mkOptions None None None true None) = None /\
  lineCount (run (map Write ["a" +:+ NL +:+ "b"; NL +:+ "c" +:+ NL +:+ "d"])
                 (new (mkOptions None None None true None))).1 = 3 /\
  progress_of (run (map Write ["a" +:+ NL +:+ "b"; NL +:+ "c" +:+ NL +:+ "d"])
                   (new (mkOptions None None None true None))).2 = [1; 2; 3].
Proof.
  split; [reflexivity|].
  apply (lineCount_and_progress (mkOptions None None None true None)
           ["a" +:+ NL +:+ "b"; NL +:+ "c" +:+ NL +:+ "d"] eq_refl).
Defined.

End LineBufferInvariants.

(** ** More on the value mapper, the reader and the batches *)

Module CSVInvariants.
Import JsNumber CSV CSVAux.

Section Mapper.

Variable dayjs : string -> string -> option Z.

Lemma first_valid_settled (datum : string) (formats : list string) (time : Z) :
  fold_left (first_valid dayjs datum) formats (Some time) = Some time.
Proof. induction formats as [|f fs IH]; [reflexivity|exact IH]. Qed.

Lemma first_valid_none (datum : string) (formats : list string) :
  Forall (fun f => dayjs datum f = None) formats ->
  fold_left (first_valid dayjs datum) formats None = None.
Proof.
  induction 1 as [|f fs Hf _ IH]; [reflexivity|].
  cbn [fold_left first_valid]. rewrite Hf. exact IH.
Qed.

(** X9: the mapper returns a number exactly for the non-empty texts whose
    [Number] is neither [NaN] nor positive infinity, and then that number,
    whatever the date formats and whatever dayjs answers. *)
Theorem defaultMap_number_iff (formats : list string) (datum : string)
  (n : number) :
  (defaultMap dayjs formats datum = SNumber n <->
   datum <> "" /\ Number datum = n /\ n <> NaN /\ n <> Infinity false) /\
  (forall (dayjs' : string -> string -> option Z) (formats' : list string),
     defaultMap dayjs formats datum = SNumber n ->
     defaultMap dayjs' formats' datum = SNumber n).
Proof.
  split; [apply CSVTheorems.numeric_branch|].
  intros dayjs' formats' H.
  apply CSVTheorems.numeric_branch. apply CSVTheorems.numeric_branch in H.
  exact H.
Qed.

Lemma trim_start_white (s : string) :
  all_white_space s = true -> trim_start s = "".
Proof.
  induction s as [|c s IH]; [reflexivity|].
  cbn [all_white_space trim_start]. intros H.
  apply andb_true_iff in H as [Hc Hs]. rewrite Hc. auto.
Qed.

(** X10: a text that is not empty and holds only white space is mapped to
    the number 0, not to [null] and not to a string. *)
Theorem white_space_is_zero (formats : list string) (datum : string) :
  datum <> "" -> all_white_space datum = true ->
  defaultMap dayjs formats datum = SNumber (Finite false 0 0).
Proof.
  intros Hne Hws. apply CSVTheorems.numeric_branch.
  split; [exact Hne|]. split; [|split; discriminate].
  unfold Number, trim. rewrite (trim_start_white datum Hws). reflexivity.
Qed.

(** X11: the date formats are tried in list order and the first one in
    which dayjs reads the text decides; the formats after it do not
    matter. This is for a text that is not taken as a number. *)
Theorem first_valid_format_wins (before after : list string) (format : string)
  (datum : string) (time : Z) :
  datum <> "" ->
  Number datum = NaN \/ Number datum = Infinity false ->
  Forall (fun f => dayjs datum f = None) before ->
  dayjs datum format = Some time ->
  defaultMap dayjs (before ++ format :: after) datum = SDate time.
Proof.
  intros Hne Hnum Hbefore Hf. unfold defaultMap.
  destruct (String.eqb_spec datum "") as [E|_]; [contradiction|].
  assert (Hg : negb (isNaN (Number datum))
               && negb (is_positive_infinity (Number datum)) = false)
    by (destruct Hnum as [-> | ->]; reflexivity).
  rewrite Hg, fold_left_app, (first_valid_none _ _ Hbefore).
  cbn [fold_left first_valid]. rewrite Hf, first_valid_settled. reflexivity.
Qed.

Lemma assoc_own (datum : string) (v : Scalar) :
  assoc datum SpecialValues_own = Some v ->
  (datum = "true" /\ v = SBoolean true) \/
  (datum = "false" /\ v = SBoolean false) \/
  (In datum error_codes /\ v = SError datum).
Proof.
  unfold SpecialValues_own, error_codes. cbn [assoc In].
  repeat (match goal with
          | |- context [String.eqb datum ?k] =>
              destruct (String.eqb_spec datum k) as [->|?];
              [intros [= <-]; auto 20|]
          end).
  discriminate.
Qed.

(** X12: what the kinds of the result say about the text: [null] only for
    the empty text; a boolean only for the text [true] or [false], in
    lower case; an error value only for one of the seven error codes,
    tagged with the text itself; and a string only as the text unchanged. *)
Theorem defaultMap_kinds (formats : list string) (datum : string) :
  (defaultMap dayjs formats datum = SNull <-> datum = "") /\
  (forall b, defaultMap dayjs formats datum = SBoolean b ->
     datum = if b then "true" else "false") /\
  (forall code, defaultMap dayjs formats datum = SError code ->
     datum = code /\ In code error_codes) /\
  (forall s, defaultMap dayjs formats datum = SString s -> s = datum).
Proof.
  unfold defaultMap.
  destruct (String.eqb_spec datum "") as [E|E].
  { split; [tauto|]. split; [|split]; intros ?; discriminate. }
  destruct (negb _ && negb _).
  { split; [split; [discriminate|contradiction]|].
    split; [|split]; intros ?; discriminate. }
  destruct (fold_left _ _ _).
  { split; [split; [discriminate|contradiction]|].
    split; [|split]; intros ?; discriminate. }
  unfold SpecialValues.
  destruct (assoc datum SpecialValues_own) as [v|] eqn:Ea.
  - apply assoc_own in Ea as [(-> & ->)|[(-> & ->)|(Hin & ->)]].
    + split; [split; discriminate|].
      split; [intros b [= <-]; reflexivity|].
      split; intros ?; discriminate.
    + split; [split; discriminate|].
      split; [intros b [= <-]; reflexivity|].
      split; intros ?; discriminate.
    + split; [split; [discriminate|contradiction]|].
      split; [intros ?; discriminate|].
      split; [intros code [= <-]; auto|intros ?; discriminate].
  - destruct (existsb _ _).
    + split; [split; [discriminate|contradiction]|].
      split; [|split]; intros ?; discriminate.
    + split; [split; [discriminate|contradiction]|].
      split; [intros ?; discriminate|].
      split; [intros ?; discriminate|intros s [= <-]; reflexivity].
Qed.

(** X13: a text that names a member of [Object.prototype], such as
    [constructor] or [toString], is not left as a string when it is no
    date: the lookup in [SpecialValues] finds the inherited member and the
    mapper returns it. *)
Theorem inherited_member_is_returned (formats : list string) (datum : string) :
  In datum Object_prototype ->
  Forall (fun f => dayjs datum f = None) formats ->
  defaultMap dayjs formats datum = SInherited datum.
Proof.
  intros Hin Hnone. unfold defaultMap.
  rewrite (first_valid_none _ _ Hnone).
  unfold Object_prototype in Hin. cbn [In] in Hin.
  repeat (destruct Hin as [<-|Hin]; [reflexivity|]). contradiction.
Qed.

End Mapper.

Lemma defaultMap_number_iff_witness :
  defaultMap StrictDate.parse default_dateFormats "0x1F"
    = SNumber (Finite false 31 0) /\
  defaultMap (fun _ _ => Some 0) [] "0x1F" = SNumber (Finite false 31 0).
Proof.
  split; [reflexivity|].
  apply (proj2 (defaultMap_number_iff StrictDate.parse default_dateFormats
                  "0x1F" (Finite false 31 0)) (fun _ _ => Some 0) []).
  reflexivity.
Defined.

Lemma white_space_is_zero_witness :
  String " " (String "009" "") <> "" /\
  all_white_space (String " " (String "009" "")) = true /\
  defaultMap StrictDate.parse default_dateFormats (String " " (String "009" ""))
    = SNumber (Finite false 0 0).
Proof.
  split; [discriminate|]. split; [reflexivity|].
  apply white_space_is_zero; [discriminate|reflexivity].
Defined.

Lemma first_valid_format_wins_witness :
  "02-29-2024" <> "" /\
  Number "02-29-2024" = NaN /\
  Forall (fun f => StrictDate.parse "02-29-2024" f = None)
         ["YYYY-MM-DD[T]HH:mm:ssZ"; "YYYY-MM-DD[T]HH:mm:ss"] /\
  StrictDate.parse "02-29-2024" "MM-DD-YYYY" = Some 1709164800000 /\
  defaultMap StrictDate.parse default_dateFormats "02-29-2024"
    = SDate 1709164800000.
Proof.
  split; [discriminate|]. split; [reflexivity|].
  assert (H : Forall (fun f => StrictDate.parse "02-29-2024" f = None)
                ["YYYY-MM-DD[T]HH:mm:ssZ"; "YYYY-MM-DD[T]HH:mm:ss"])
    by (repeat constructor).
  split; [exact H|]. split; [reflexivity|].
  apply (first_valid_format_wins StrictDate.parse
           ["YYYY-MM-DD[T]HH:mm:ssZ"; "YYYY-MM-DD[T]HH:mm:ss"] ["YYYY-MM-DD"]
           "MM-DD-YYYY" "02-29-2024" 1709164800000);
    [discriminate | left; reflexivity | exact H | reflexivity].
Defined.

Lemma defaultMap_kinds_witness :
  defaultMap StrictDate.parse default_dateFormats "#NUM!" = SError "#NUM!" /\
  "#NUM!" = "#NUM!" /\ In "#NUM!" error_codes.
Proof.
  split; [reflexivity|].
  apply (proj1 (proj2 (proj2 (defaultMap_kinds StrictDate.parse
                                default_dateFormats "#NUM!")))).
  reflexivity.
Defined.

Lemma inherited_member_is_returned_witness :
  In "toString" Object_prototype /\
  Forall (fun f => StrictDate.parse "toString" f = None) default_dateFormats /\
  defaultMap StrictDate.parse default_dateFormats "toString"
    = SInherited "toString".
Proof.
  assert (Hin : In "toString" Object_prototype) by (cbn; tauto).
  assert (H : Forall (fun f => StrictDate.parse "toString" f = None)
                default_dateFormats) by (repeat constructor).
  split; [exact Hin|]. split; [exact H|].
  apply (inherited_member_is_returned StrictDate.parse default_dateFormats
           "toString" Hin H).
Defined.

End CSVInvariants.

(** ** The table of a read, the stream of a file, failed streams *)

Module ReaderInvariants.
Import JsNumber CSV CSVAux.

Section Reader.

Variable dayjs : string -> string -> option Z.
Variable exists_ : string -> bool.
Variable parsed : string -> list parser_event.

(** The table when the parser emits records and then the end. *)
Lemma read_events_table (mapper : string -> Scalar) (sheet : option string)
  (records : list (list string)) (rest : list parser_event)
  (worksheets : gmap (option string) (list Row)) :
  read_events mapper sheet (map Data records ++ EndOfStream :: rest) worksheets
  = Resolved
      (match records with
       | [] => worksheets
       | _ => <[sheet := default [] (worksheets !! sheet)
                         ++ map (map mapper) records]> worksheets
       end).
Proof.
  revert worksheets. induction records as [|r rs IH]; intros worksheets.
  - reflexivity.
  - cbn [map app read_events]. rewrite IH. f_equal.
    destruct rs as [|r' rs']; [reflexivity|].
    rewrite lookup_insert_eq. cbn [default from_option]. unfold id.
    rewrite insert_insert_eq, <- app_assoc. reflexivity.
Qed.

Lemma read_events_pending (mapper : string -> Scalar) (sheet : option string)
  (records : list (list string))
  (worksheets : gmap (option string) (list Row)) :
  read_events mapper sheet (map Data records) worksheets = Pending.
Proof.
  revert worksheets. induction records as [|r rs IH]; intros worksheets;
    [reflexivity|]. cbn [map read_events]. apply IH.
Qed.

(** X14: when the parser emits records and then the end of the stream,
    [read] resolves with a table that holds, under the one key
    [options.sheetName], the records in order, each mapped field by field;
    no other key is present, and with no record at all the table is empty:
    it does not even hold the key. *)
Theorem read_table (records : list (list string)) (rest : list parser_event)
  (options : read_options) :
  read dayjs (map Data records ++ EndOfStream :: rest) options =
  Resolved
    (match records with
     | [] => ∅
     | _ => {[ sheetName options := map (map (mapper_of dayjs options)) records ]}
     end).
Proof.
  unfold read. rewrite read_events_table.
  destruct records as [|r rs]; [reflexivity|].
  rewrite lookup_empty. cbn [default from_option app]. rewrite insert_empty.
  reflexivity.
Qed.

(** X15: [read] settles at the first end or error the parser emits and
    ignores whatever follows: an error after any records rejects with that
    error, and no table is returned; a stream that emits records and
    neither ends nor fails leaves the promise pending. *)
Theorem read_settles_once (records : list (list string))
  (message : string) (rest : list parser_event) (options : read_options) :
  read dayjs (map Data records ++ ParseError message :: rest) options
    = Rejected (StreamError message) /\
  (forall rest',
     read dayjs (map Data records ++ EndOfStream :: rest) options =
     read dayjs (map Data records ++ EndOfStream :: rest') options) /\
  read dayjs (map Data records) options = Pending.
Proof.
  split; [apply CSVTheorems.read_events_error|].
  split; [|apply read_events_pending].
  intros rest'. unfold read. rewrite !read_events_table. reflexivity.
Qed.

Lemma read_never_not_found (events : list parser_event)
  (options : read_options) (filename : string) :
  read dayjs events options <> Rejected (FileNotFound filename).
Proof.
  unfold read. generalize (∅ : gmap (option string) (list Row)).
  induction events as [|[data| |message] events IH]; intros worksheets;
    cbn [read_events]; try discriminate. apply IH.
Qed.

(** X16: [readFile] opens a read stream exactly when the file exists,
    closes it exactly when the read resolves, and rejects with
    [FileNotFound] exactly when the file does not exist. *)
Theorem readFile_stream_use (filename : string) (options : read_options) :
  let r := readFile dayjs exists_ parsed filename options in
  (In (CreateReadStream filename) r.2 <-> exists_ filename = true) /\
  (In (Close filename) r.2 <-> exists worksheets, r.1 = Resolved worksheets) /\
  (r.1 = Rejected (FileNotFound filename) <-> exists_ filename = false).
Proof.
  unfold readFile. destruct (exists_ filename) eqn:He; cbn [negb].
  - pose proof (read_never_not_found (parsed filename) options filename) as Hn.
    destruct (read dayjs (parsed filename) options) as [ws|reason|];
      cbn [fst snd In].
    + split; [tauto|]. split; [|split; [discriminate|discriminate]].
      split; [eauto|auto].
    + split; [tauto|]. split.
      * split; [intros [H|[]]; discriminate H|intros [ws H]; discriminate H].
      * split; [intros H; contradiction|discriminate].
    + split; [tauto|]. split.
      * split; [intros [H|[]]; discriminate H|intros [ws H]; discriminate H].
      * split; discriminate.
  - cbn [fst snd In]. split; [split; [contradiction|discriminate]|].
    split; [|tauto].
    split; [contradiction|intros [ws H]; discriminate H].
Qed.

(** What [streamFile] has done when the parser has emitted records: full
    batches have gone to the sink and fewer than 1000 rows are waiting. *)
Lemma stream_events_feed (records : list (list string))
  (tail : list parser_event) (rows : list (list string))
  (batches : list (list (list string))) :
  (length rows < 1000)%nat ->
  exists (bs : list (list (list string))) (rows' : list (list string)),
    stream_events (map Data records ++ tail) rows batches
      = stream_events tail rows' (batches ++ bs) /\
    concat bs ++ rows' = rows ++ records /\
    Forall (fun b => length b = 1000%nat) bs /\
    (length rows' < 1000)%nat.
Proof.
  revert rows batches. induction records as [|x xs IH]; intros rows batches Hlt.
  - exists [], rows. cbn [map app concat]. rewrite !app_nil_r.
    repeat split; auto.
  - cbn [map app stream_events].
    destruct (Nat.leb_spec 1000 (length (rows ++ [x]))) as [Hge|Hlt'].
    + rewrite length_app in Hge. cbn [length] in Hge.
      destruct (IH [] (batches ++ [rows ++ [x]])) as
        (bs & rows' & Hs & Hc & Hf & Hr); [cbn; lia|].
      exists ((rows ++ [x]) :: bs), rows'.
      rewrite Hs, <- app_assoc. cbn [app concat].
      repeat split; auto.
      * rewrite <- app_assoc, Hc, <- app_assoc. reflexivity.
      * constructor; [|exact Hf]. rewrite length_app. cbn [length]. lia.
    + destruct (IH (rows ++ [x]) batches Hlt') as
        (bs & rows' & Hs & Hc & Hf & Hr).
      exists bs, rows'. rewrite Hs, Hc, <- app_assoc.
      repeat split; auto.
Qed.

Lemma length_concat_full (bs : list (list (list string))) :
  Forall (fun b => length b = 1000%nat) bs ->
  length (concat bs) = (1000 * length bs)%nat.
Proof.
  induction 1 as [|b bs Hb _ IH]; [reflexivity|].
  cbn [concat length]. rewrite length_app, Hb, IH. lia.
Qed.

(** X17: when the parser fails after some records, [streamFile] rejects
    with the error; the sink has received only full batches of 1000 rows,
    one for every 1000 records before the error, in order, and the rows
    after the last full batch are never handed to it. *)
Theorem streamFile_error_drops_partial_batch (filename : string)
  (records : list (list string)) (message : string)
  (rest : list parser_event) :
  parsed filename = map Data records ++ ParseError message :: rest ->
  let r := streamFile parsed filename in
  r.1 = Rejected (StreamError message) /\
  Forall (fun batch => length batch = 1000%nat) r.2 /\
  length r.2 = (length records / 1000)%nat /\
  concat r.2 = take (1000 * (length records / 1000)) records.
Proof.
  intros Hp r. subst r. unfold streamFile. rewrite Hp.
  destruct (stream_events_feed records (ParseError message :: rest) [] [])
    as (bs & rows' & Hs & Hc & Hf & Hr); [cbn; lia|].
  rewrite Hs. cbn [stream_events fst snd app] in *.
  pose proof (length_concat_full bs Hf) as Hlen.
  assert (Htotal : (length records = 1000 * length bs + length rows')%nat).
  { rewrite <- Hc, length_app. lia. }
  assert (Hq : (length records / 1000 = length bs)%nat).
  { rewrite Htotal, Nat.mul_comm, Nat.div_add_l by lia.
    rewrite Nat.div_small by lia. lia. }
  split; [reflexivity|]. split; [exact Hf|]. split; [auto|].
  rewrite Hq, <- Hlen, <- Hc. symmetry. apply take_app_length.
Qed.

End Reader.

Lemma streamFile_error_drops_partial_batch_witness :
  (fun _ : string =>
     map Data (repeat ["x"] 1500) ++ ParseError "bad" :: [Data ["y"]]) "f.csv"
    = map Data (repeat ["x"] 1500) ++ ParseError "bad" :: [Data ["y"]] /\
  (streamFile
     (fun _ => map Data (repeat ["x"] 1500) ++ ParseError "bad" :: [Data ["y"]])
     "f.csv").1 = Rejected (StreamError "bad") /\
  length
    (streamFile
       (fun _ => map Data (repeat ["x"] 1500) ++ ParseError "bad" :: [Data ["y"]])
       "f.csv").2 = (length (repeat ["x"] 1500) / 1000)%nat.
Proof.
  split; [reflexivity|].
  pose proof (streamFile_error_drops_partial_batch
                (fun _ => map Data (repeat ["x"] 1500)
                          ++ ParseError "bad" :: [Data ["y"]])
                "f.csv" (repeat ["x"] 1500) "bad" [Data ["y"]] eq_refl)
    as (H1 & _ & H3 & _).
  split; [exact H1 | exact H3].
Defined.

Section Columns.

Variable V : Type.

(** X18: mapping a row through [mapColumns(columns)] keeps its length and
    changes only the columns for which [columns] holds a function: a
    column past the end of [columns] or with no entry is left as it is,
    and so is the whole row when [columns] is absent. *)
Theorem mapColumns_leaves_unmapped (columns : list (option (V -> V)))
  (values : list V) :
  length (map_row V (Some columns) values) = length values /\
  map_row V None values = values /\
  (forall i, columns !! i = None \/ columns !! i = Some None ->
     map_row V (Some columns) values !! i = values !! i) /\
  (forall i f v, columns !! i = Some (Some f) -> values !! i = Some v ->
     map_row V (Some columns) values !! i = Some (f v)).
Proof.
  unfold map_row. split; [apply length_imap|]. split.
  - apply list_eq. intros i. rewrite list_lookup_imap.
    destruct (values !! i); reflexivity.
  - split.
    + intros i Hi. rewrite list_lookup_imap. unfold mapColumns.
      destruct (values !! i); [|reflexivity]. cbn.
      destruct Hi as [-> | ->]; reflexivity.
    + intros i f v Hc Hv. rewrite list_lookup_imap, Hv. cbn.
      unfold mapColumns. rewrite Hc. reflexivity.
Qed.

End Columns.

Lemma mapColumns_leaves_unmapped_witness :
  [Some Z.succ; None] !! 2%nat = None /\
  [Some Z.succ; None] !! 0%nat = Some (Some Z.succ) /\
  [10; 20; 30] !! 0%nat = Some 10 /\
  map_row Z (Some [Some Z.succ; None]) [10; 20; 30] !! 2%nat
    = [10; 20; 30] !! 2%nat /\
  map_row Z (Some [Some Z.succ; None]) [10; 20; 30] !! 0%nat
    = Some (Z.succ 10).
Proof.
  split; [reflexivity|]. split; [reflexivity|]. split; [reflexivity|].
  pose proof (mapColumns_leaves_unmapped Z [Some Z.succ; None] [10; 20; 30])
    as (_ & _ & H3 & H4).
  split; [apply H3; left; reflexivity|].
  apply (H4 0%nat Z.succ 10); reflexivity.
Defined.

End ReaderInvariants.

(** ** The byte order marks and the encodings of [StreamConverter] *)

Module StreamConverterFacts.
Import StreamConverter.

Section Converter.

Variable toUpperCase : string -> string.

Lemma inner_chunks_app (xs ys : list effect) :
  inner_chunks (xs ++ ys) = inner_chunks xs ++ inner_chunks ys.
Proof. apply omap_app. Qed.









(** A write keeps the encodings and the marks. *)
Lemma write_settings (data : Buffer) (encoding : option string)
  (callback : bool) (sc : t) :
  let sc' := (write toUpperCase data encoding callback sc).1.1 in
  innerEncoding sc' = innerEncoding sc /\
  outerEncoding sc' = outerEncoding sc /\
  innerBOM sc' = innerBOM sc.
Proof.
  unfold write.
  destruct (writeStarted sc) eqn:Hs.
  - destruct (validation _ sc); [repeat split|].
    destruct (convertInwards sc data); [|repeat split].
    destruct (customErrorHandler sc); repeat split.
  - destruct (outerBOM sc) as [bom|].
    + destruct (length data <=? length bom)%nat; [repeat split|].
      destruct (validation _ (started sc)); [repeat split|].
      destruct (convertInwards (started sc) _); [|repeat split].
      destruct (customErrorHandler (started sc)); repeat split.
    + destruct (validation _ (started sc)); [repeat split|].
      destruct (convertInwards (started sc) _); [|repeat split].
      destruct (customErrorHandler (started sc)); repeat split.
Qed.

(** X21: when the inner and the outer encoding differ, no chunk of data
    ever reaches the inner stream through [write]: the conversion calls
    [jconv], which is never loaded. All that is written is the inner byte
    order mark; a write that gets to the conversion throws, or hands the
    error to [customErrorHandler] and returns. *)
Theorem different_encodings_write_no_data (sc : t) (chunks : list Buffer) :
  innerEncoding sc <> outerEncoding sc ->
  Forall (fun c => innerBOM sc = Some c)
         (inner_chunks (writes toUpperCase chunks sc).1.2).
Proof.
  intros Hne. revert sc Hne. induction chunks as [|c cs IH]; intros sc Hne.
  - constructor.
  - cbn [writes].
    pose proof (write_settings c None false sc) as (Hi & Ho & Hb).
    assert (Hw : Forall (fun x => innerBOM sc = Some x)
                   (inner_chunks (write toUpperCase c None false sc).1.2)).
    { unfold write.
      assert (Hconv : forall d, convertInwards (started sc) d = inl JconvUndefined).
      { intros d. unfold convertInwards. cbn.
        destruct (String.eqb_spec (innerEncoding sc) (outerEncoding sc));
          [contradiction|reflexivity]. }
      assert (Hconv' : forall d, convertInwards sc d = inl JconvUndefined).
      { intros d. unfold convertInwards.
        destruct (String.eqb_spec (innerEncoding sc) (outerEncoding sc));
          [contradiction|reflexivity]. }
      assert (Hm : Forall (fun x => innerBOM sc = Some x)
                     (inner_chunks
                        match innerBOM sc with
                        | Some bom => [InnerWrite bom None false]
                        | None => []
                        end)).
      { destruct (innerBOM sc); repeat constructor. }
      destruct (writeStarted sc).
      - destruct (validation _ sc); [constructor|].
        rewrite Hconv'. destruct (customErrorHandler sc); constructor.
      - destruct (outerBOM sc) as [bom|].
        + destruct (length c <=? length bom)%nat.
          * cbn [fst snd]. rewrite inner_chunks_app.
            apply Forall_app. split; [exact Hm|].
            destruct false; constructor.
          * destruct (validation _ (started sc)); [exact Hm|].
            rewrite Hconv. destruct (customErrorHandler (started sc));
              cbn [fst snd]; [|exact Hm].
            rewrite inner_chunks_app. apply Forall_app.
            split; [exact Hm|constructor].
        + destruct (validation _ (started sc)); [exact Hm|].
          rewrite Hconv. destruct (customErrorHandler (started sc));
            cbn [fst snd]; [|exact Hm].
          rewrite inner_chunks_app. apply Forall_app.
          split; [exact Hm|constructor]. }
    destruct (write toUpperCase c None false sc) as [[sc1 e1] d1].
    cbn [fst snd] in *.
    specialize (IH sc1). destruct (writes toUpperCase cs sc1) as [[sc2 e2] d2].
    cbn [fst snd] in *. rewrite inner_chunks_app. apply Forall_app.
    split; [exact Hw|]. rewrite <- Hb. apply IH. congruence.
Qed.

End Converter.



Lemma different_encodings_write_no_data_witness :
  innerEncoding utf16_converter <> outerEncoding utf16_converter /\
  (writes upper_ascii [[Byte.x61]; [Byte.x62]] utf16_converter).1.2
    = [InnerWrite utf8_mark None false; Handled JconvUndefined;
       Handled JconvUndefined] /\
  Forall (fun c => innerBOM utf16_converter = Some c)
         (inner_chunks
            (writes upper_ascii [[Byte.x61]; [Byte.x62]] utf16_converter).1.2).
Proof.
  assert (Hne : innerEncoding utf16_converter <> outerEncoding utf16_converter)
    by discriminate.
  split; [exact Hne|]. split; [reflexivity|].
  apply (different_encodings_write_no_data upper_ascii utf16_converter
           [[Byte.x61]; [Byte.x62]] Hne).
Defined.

End StreamConverterFacts.
